(** * BCLand front end: asset lifecycle and secure content transfer

    A shallow embedding of the TypeScript sources

      - [src/modals/EditLandModal.tsx]  ([statusToEnum], [RM_PER_ETH])
      - [GovLand/src/lib/contracts.ts]  ([connectAccount], [getMyLands],
        [listingLand], [getYourLands], [fetchLandPrice], [fetchAllLands],
        [listLandForSale], [requestToBuyLand], [signAuthMessage],
        [approvePurchase])

    together with the parts of the JavaScript run time and of the ethers
    library that these functions call: IEEE 754 binary64 numbers,
    [parseFloat], [Number.prototype.toString], [Number.prototype.toFixed],
    [JSON.stringify], [ethers.parseEther] and [ethers.formatEther].

    Asynchronous code is embedded as a tree of awaited calls ([Prog]); the
    ledger, the wallet, the content store and the gateways are an oracle
    answering those calls ([world]).  [Promise.all] over mapped async
    functions is embedded as a pool of such trees whose pending calls are
    completed in an arbitrary order ([Pool]). *)

From Stdlib Require Import ZArith List String Ascii Bool Lia.
From Stdlib Require Import Floats.SpecFloat.
Import ListNotations.

Local Open Scope string_scope.
Local Open Scope list_scope.
Local Open Scope Z_scope.

Set Implicit Arguments.

(* ===================================================================== *)
(** * Characters and decimal digit strings *)
(* ===================================================================== *)

(** Text is processed as a list of characters; [lit] and [str] convert
    from and to [string] at the boundaries. *)
Definition chars : Type := list ascii.
Definition lit (s : string) : chars := list_ascii_of_string s.
Definition str (l : chars) : string := string_of_list_ascii l.

Module Digits.

Definition code (c : ascii) : Z := Z.of_N (N_of_ascii c).

Definition is_digit (c : ascii) : bool := (48 <=? code c) && (code c <=? 57).

Definition digit_val (c : ascii) : Z := code c - 48.

Definition digit_char (d : Z) : ascii := ascii_of_N (Z.to_N (48 + d)).

(** Value of a sequence of decimal digits, most significant first, on
    top of the accumulator [acc]: [BigInt(s)] for a digit string. *)
Fixpoint val_acc (acc : Z) (s : chars) : Z :=
  match s with
  | [] => acc
  | c :: r => val_acc (10 * acc + digit_val c) r
  end.

Definition val (s : chars) : Z := val_acc 0 s.

(** Longest prefix of decimal digits and the rest. *)
Fixpoint span_digits (s : chars) : chars * chars :=
  match s with
  | [] => ([], [])
  | c :: r =>
      if is_digit c
      then let '(d, t) := span_digits r in (c :: d, t)
      else ([], s)
  end.

(** Decimal digits of a non-negative integer: [n.toString()] for a
    non-negative BigInt.  [fuel] bounds the number of digits. *)
Fixpoint of_Z_fuel (fuel : nat) (n : Z) (acc : chars) : chars :=
  match fuel with
  | O => acc
  | S f =>
      let acc' := digit_char (n mod 10) :: acc in
      if n <? 10 then acc' else of_Z_fuel f (n / 10) acc'
  end.

Definition of_Z (n : Z) : chars :=
  of_Z_fuel (S (Z.to_nat (Z.log2 n))) n [].

Definition zeros (n : nat) : chars := repeat "0"%char n.


End Digits.

(* ===================================================================== *)
(** * JavaScript Numbers: IEEE 754 binary64 *)
(* ===================================================================== *)

Module Number.

Definition prec : Z := 53.
Definition emax : Z := 1024.

(** A Number is a binary64 value; [S754_finite s m e] is
    [(-1)^s * m * 2^e]. *)
Definition number : Type := spec_float.

Definition NaN : number := S754_nan.
Definition Infinity : number := S754_infinity false.
Definition zero : number := S754_zero false.

Definition div : number -> number -> number := SFdiv prec emax.
Definition mul : number -> number -> number := SFmul prec emax.
Definition leb : number -> number -> bool := SFleb.

(** Identity of values (used to test that a decimal reads back as the
    same Number). *)
Definition same (x y : number) : bool :=
  match x, y with
  | S754_zero a, S754_zero b => Bool.eqb a b
  | S754_infinity a, S754_infinity b => Bool.eqb a b
  | S754_nan, S754_nan => true
  | S754_finite a m e, S754_finite b m' e' =>
      Bool.eqb a b && Pos.eqb m m' && Z.eqb e e'
  | _, _ => false
  end.

(** The Number nearest to [(-1)^neg * n * 10^j] (round to nearest, ties
    to even): the value of a decimal literal with digits [n] and decimal
    exponent [j]. *)
Definition of_decimal (neg : bool) (n : Z) (j : Z) : number :=
  match n with
  | Z0 => S754_zero neg
  | Zneg _ => S754_nan
  | Zpos p =>
      match j with
      | Zneg _ =>
          let '(q, e, l) :=
            SFdiv_core_binary prec emax n 0 (10 ^ (- j)) 0 in
          binary_round_aux prec emax neg q e l
      | _ =>
          match n * 10 ^ j with
          | Zpos m => binary_round prec emax neg m 0
          | _ => S754_zero neg
          end
      end
  end.

Definition of_Z (z : Z) : number :=
  of_decimal (z <? 0) (Z.abs z) 0.

(** ** [Number::toString] (radix 10) *)

(** A positive finite Number [m * 2^e] as a fraction. *)
Definition frac (m : positive) (e : Z) : Z * Z :=
  match e with
  | Zneg _ => (Zpos m, 2 ^ (- e))
  | _ => (Zpos m * 2 ^ e, 1)
  end.

(** The [n] with [10^(n-1) <= num / den < 10^n], searched upwards from 1
    or downwards from 0. *)
Fixpoint exp10_up (fuel : nat) (num den : Z) (n : Z) : Z :=
  match fuel with
  | O => n
  | S f => if num <? den * 10 ^ n then n else exp10_up f num den (n + 1)
  end.

Fixpoint exp10_down (fuel : nat) (num den : Z) (n : Z) : Z :=
  match fuel with
  | O => n
  | S f =>
      if num * 10 ^ (1 - n) <? den then exp10_down f num den (n - 1) else n
  end.

Definition exp10 (num den : Z) : Z :=
  if den <=? num then exp10_up 400 num den 1
  else exp10_down 400 num den 0.

(** [num / den * 10^t] as a fraction. *)
Definition scale10 (num den t : Z) : Z * Z :=
  match t with
  | Zneg _ => (num, den * 10 ^ (- t))
  | _ => (num * 10 ^ t, den)
  end.

Fixpoint strip_zeros (fuel : nat) (c j : Z) : Z * Z :=
  match fuel with
  | O => (c, j)
  | S f =>
      if (c mod 10 =? 0) && (0 <? c) then strip_zeros f (c / 10) (j + 1)
      else (c, j)
  end.

(** Shortest decimal [c * 10^j] that reads back as [x = m * 2^e], trying
    [k = 1, 2, ...] significant digits; among two candidates of the same
    length the one nearer to [x]. *)
Fixpoint shortest (fuel : nat) (k : Z) (x : number) (num den n : Z)
  : Z * Z :=
  let '(a, b) := scale10 num den (k - n) in
  let lo := a / b in
  let r := a mod b in
  let hi := lo + 1 in
  let ok_lo := same (of_decimal false lo (n - k)) x in
  let ok_hi := same (of_decimal false hi (n - k)) x in
  let pick :=
    if ok_lo && ok_hi then
      match Z.compare (2 * r) b with
      | Lt => Some lo
      | Gt => Some hi
      | Eq => Some (if Z.even lo then lo else hi)
      end
    else if ok_lo then Some lo
    else if ok_hi then Some hi
    else None in
  match pick, fuel with
  | Some c, _ => (c, n - k)
  | None, O => (lo, n - k)
  | None, S f => shortest f (k + 1) x num den n
  end.

(** The digits [s] and the exponent [n] of [Number::toString]: the value
    is [0.s * 10^n]. *)
Definition digits_of (m : positive) (e : Z) : chars * Z :=
  let '(num, den) := frac m e in
  let n := exp10 num den in
  let '(c, j) := shortest 20 1 (S754_finite false m e) num den n in
  let '(c', j') := strip_zeros 400 c j in
  let s := Digits.of_Z c' in
  (s, Z.of_nat (List.length s) + j').

Definition format_digits (s : chars) (n : Z) : chars :=
  let k := Z.of_nat (List.length s) in
  if (k <=? n) && (n <=? 21) then
    s ++ Digits.zeros (Z.to_nat (n - k))
  else if (0 <? n) && (n <=? 21) then
    firstn (Z.to_nat n) s ++ lit "." ++ skipn (Z.to_nat n) s
  else if (-6 <? n) && (n <=? 0) then
    lit "0." ++ Digits.zeros (Z.to_nat (- n)) ++ s
  else
    let ex := n - 1 in
    let sgn := if ex <? 0 then lit "-" else lit "+" in
    let mant :=
      if k =? 1 then s
      else firstn 1 s ++ lit "." ++ skipn 1 s in
    mant ++ lit "e" ++ sgn ++ Digits.of_Z (Z.abs ex).

Definition toString (x : number) : string :=
  match x with
  | S754_nan => "NaN"
  | S754_zero _ => "0"
  | S754_infinity false => "Infinity"
  | S754_infinity true => "-Infinity"
  | S754_finite s m e =>
      let '(d, n) := digits_of m e in
      str ((if s then lit "-" else []) ++ format_digits d n)
  end.

(** ** [Number.prototype.toFixed] *)

Definition toFixed (f : nat) (x : number) : string :=
  match x with
  | S754_nan => "NaN"
  | S754_infinity _ => toString x
  | S754_zero _ =>
      str (if Nat.eqb f 0 then lit "0" else lit "0." ++ Digits.zeros f)
  | S754_finite s m e =>
      let '(num, den) := frac m e in
      if den * 10 ^ 21 <=? num then toString x
      else
        (* the integer n for which n / 10^f - x is closest to zero, the
           larger one when there are two *)
        let n := (2 * num * 10 ^ Z.of_nat f + den) / (2 * den) in
        let d := Digits.of_Z n in
        let k := List.length d in
        let d' := if Nat.leb k f then Digits.zeros (f + 1 - k) ++ d else d in
        let k' := List.length d' in
        str ((if s then lit "-" else []) ++
             (if Nat.eqb f 0 then d'
              else firstn (k' - f) d' ++ lit "." ++ skipn (k' - f) d'))
  end.

(** ** [parseFloat] *)

Definition is_space (c : ascii) : bool :=
  let n := Digits.code c in
  (n =? 32) || ((9 <=? n) && (n <=? 13)).

Fixpoint trim_start (s : chars) : chars :=
  match s with
  | c :: r => if is_space c then trim_start r else s
  | [] => s
  end.

(** Optional exponent part [e[+-]digits]; absent when no digit follows. *)
Definition exponent_part (s : chars) : Z :=
  match s with
  | c :: r =>
      if (Ascii.eqb c "e" || Ascii.eqb c "E")%bool then
        match r with
        | sg :: r' =>
            if Ascii.eqb sg "-" then - Digits.val (fst (Digits.span_digits r'))
            else if Ascii.eqb sg "+" then Digits.val (fst (Digits.span_digits r'))
            else Digits.val (fst (Digits.span_digits r))
        | [] => 0
        end
      else 0
  | [] => 0
  end.

Definition prefix (p s : chars) : bool :=
  String.eqb (str (firstn (List.length p) s)) (str p).

(** Unsigned part of a [StrDecimalLiteral] prefix. *)
Definition parse_unsigned (neg : bool) (s : chars) : number :=
  if prefix (lit "Infinity") s then S754_infinity neg
  else
    let '(ip, r) := Digits.span_digits s in
    let '(fp, r') :=
      match r with
      | "."%char :: t => Digits.span_digits t
      | _ => ([], r)
      end in
    match ip ++ fp with
    | [] => S754_nan
    | ds =>
        of_decimal neg (Digits.val ds)
          (exponent_part r' - Z.of_nat (List.length fp))
    end.

Definition parseFloat (s : string) : number :=
  match trim_start (lit s) with
  | "-"%char :: r => parse_unsigned true r
  | "+"%char :: r => parse_unsigned false r
  | t => parse_unsigned false t
  end.

End Number.

(* ===================================================================== *)
(** * JavaScript values, errors and JSON *)
(* ===================================================================== *)

Module JS.

Import Number.

Set Warnings "-register-all".

(** The values that cross the program's boundaries as [any]: parsed JSON
    documents and service replies.  An object is its list of own
    properties in insertion order, with distinct keys. *)
Inductive value : Type :=
| Undefined
| Null
| Bool (b : bool)
| Num (x : number)
| Str (s : string)
| Arr (items : list value)
| Obj (fields : list (string * value)).

(** [ToBoolean]. *)
Definition truthy (v : value) : bool :=
  match v with
  | Undefined | Null => false
  | Bool b => b
  | Num (S754_zero _) | Num S754_nan => false
  | Num _ => true
  | Str s => negb (String.eqb s EmptyString)
  | Arr _ | Obj _ => true
  end.

Fixpoint lookup (key : string) (fields : list (string * value)) : value :=
  match fields with
  | [] => Undefined
  | (k, v) :: r => if String.eqb k key then v else lookup key r
  end.

(** Property read [v.key] for the data properties the sources read;
    a value that is not an object has none of them.  ([v] is never
    [null] or [undefined] where the sources read a property without
    [?.].) *)
Definition get (v : value) (key : string) : value :=
  match v with
  | Obj fields => lookup key fields
  | _ => Undefined
  end.

(** Optional chaining [v?.key]. *)
Definition optional_get (v : value) (key : string) : value :=
  match v with
  | Undefined | Null => Undefined
  | _ => get v key
  end.

(** [typeof v === "object"]. *)
Definition typeof_object (v : value) : bool :=
  match v with
  | Null | Arr _ | Obj _ => true
  | _ => false
  end.

(** [ToString], as applied by template literals and by [new Error(v)]. *)
Fixpoint toString (v : value) : string :=
  match v with
  | Undefined => "undefined"
  | Null => "null"
  | Bool true => "true"
  | Bool false => "false"
  | Num x => Number.toString x
  | Str s => s
  | Arr items =>
      (fix join (l : list value) : string :=
         match l with
         | [] => EmptyString
         | x :: r =>
             let e :=
               match x with
               | Undefined | Null => EmptyString
               | _ => toString x
               end in
             match r with
             | [] => e
             | _ => (e ++ "," ++ join r)%string
             end
         end) items
  | Obj _ => "[object Object]"
  end.

(** ** [JSON.stringify] *)

Definition hex_digit (n : Z) : ascii :=
  if n <? 10 then Digits.digit_char n
  else ascii_of_N (Z.to_N (87 + n)).

(** [QuoteJSONString] on one character. *)
Definition quote_char (c : ascii) : chars :=
  let n := Digits.code c in
  if n =? 34 then ["\"; c]%char
  else if n =? 92 then ["\"; "\"]%char
  else if n =? 8 then lit "\b"
  else if n =? 12 then lit "\f"
  else if n =? 10 then lit "\n"
  else if n =? 13 then lit "\r"
  else if n =? 9 then lit "\t"
  else if n <? 32 then lit "\u00" ++ [hex_digit (n / 16); hex_digit (n mod 16)]
  else [c].

Definition dquote : ascii := ascii_of_N 34.

Definition quote (s : string) : chars :=
  dquote :: flat_map quote_char (lit s) ++ [dquote].

Fixpoint ser (v : value) : chars :=
  match v with
  | Undefined | Null => lit "null"
  | Bool true => lit "true"
  | Bool false => lit "false"
  | Num x =>
      match x with
      | S754_nan | S754_infinity _ => lit "null"
      | _ => lit (Number.toString x)
      end
  | Str s => quote s
  | Arr items =>
      lit "[" ++
      (fix elems (l : list value) : chars :=
         match l with
         | [] => []
         | x :: r =>
             ser x ++ match r with [] => [] | _ => lit "," ++ elems r end
         end) items ++ lit "]"
  | Obj fields =>
      lit "{" ++
      (fix props (first : bool) (l : list (string * value)) : chars :=
         match l with
         | [] => []
         | (_, Undefined) :: r => props first r
         | (k, x) :: r =>
             (if first then [] else lit ",") ++
             quote k ++ lit ":" ++ ser x ++ props false r
         end) true fields ++ lit "}"
  end.

(** [JSON.stringify(v)] for a value that is not [undefined]. *)
Definition JSON_stringify (v : value) : string := str (ser v).

(** ** Errors *)

(** An exception value: its [name], its [message] and, for the errors
    of the ethers library, its [code]. *)
Record Error : Type := mkError {
  name : string;
  message : string;
  code : option string
}.

(** [new Error(msg)] *)
Definition new_Error (msg : string) : Error :=
  {| name := "Error"; message := msg; code := None |}.

(** The [TypeError] of a property read on [undefined]. *)
Definition TypeError_read (prop : string) : Error :=
  {| name := "TypeError";
     message := ("Cannot read properties of undefined (reading '"
                 ++ prop ++ "')")%string;
     code := None |}.

Definition Error_eqb (a b : Error) : bool :=
  String.eqb (name a) (name b) && String.eqb (message a) (message b) &&
  match code a, code b with
  | Some x, Some y => String.eqb x y
  | None, None => true
  | _, _ => false
  end.

End JS.

(** The outcome of an awaited call or of a function that may throw. *)
Inductive result (A : Type) : Type :=
| Ok (a : A)
| Err (e : JS.Error).
Arguments Ok {A} a.
Arguments Err {A} e.

(* ===================================================================== *)
(** * The ethers library: [parseEther] and [formatEther] *)
(* ===================================================================== *)

Module Ethers.

(** [message] holds the short message of the library's error; the
    library appends the offending argument and its version to it. *)
Definition invalid_argument (msg : string) : JS.Error :=
  {| JS.name := "TypeError"; JS.message := msg;
     JS.code := Some "INVALID_ARGUMENT" |}.

Definition numeric_fault (msg : string) : JS.Error :=
  {| JS.name := "RangeError"; JS.message := msg;
     JS.code := Some "NUMERIC_FAULT" |}.

Definition decimals : nat := 18.
Definition width : Z := 512.

(** [checkValue] for the signed 512-bit format. *)
Definition in_range (v : Z) : bool :=
  (- 2 ^ (width - 1) <=? v) && (v <? 2 ^ (width - 1)).

(** The match of the library's pattern for fixed-point text: an optional
    minus sign, decimal digits, an optional point, decimal digits, and
    nothing else.  The groups are the sign, the whole part and the
    decimal part. *)
Definition split_sign (s : chars) : bool * chars :=
  match s with
  | "-"%char :: r => (true, r)
  | _ => (false, s)
  end.

Definition match_fixed (s : chars) : option (bool * chars * chars) :=
  let '(neg, r) := split_sign s in
  let '(whole, r1) := Digits.span_digits r in
  let r2 := match r1 with "."%char :: t => t | _ => r1 end in
  let '(dec, r3) := Digits.span_digits r2 in
  match r3 with
  | [] => Some (neg, whole, dec)
  | _ => None
  end.

(** [while (decimal.length < decimals) { decimal += "0000"; }] *)
Fixpoint pad_right (fuel : nat) (dec : chars) : chars :=
  match fuel with
  | O => dec
  | S f =>
      if Nat.ltb (List.length dec) decimals
      then pad_right f (dec ++ lit "0000")
      else dec
  end.

Definition all_zero (s : chars) : bool :=
  forallb (fun c => Ascii.eqb c "0") s.

(** [FixedNumber.fromString(value, { decimals: 18, width: 512 }).value] *)
Definition fromString (s : string) : result Z :=
  match match_fixed (lit s) with
  | None => Err (invalid_argument "invalid FixedNumber string value")
  | Some (neg, whole0, dec0) =>
      if Nat.eqb (List.length whole0 + List.length dec0) 0
      then Err (invalid_argument "invalid FixedNumber string value")
      else
        let whole := match whole0 with [] => lit "0" | _ => whole0 end in
        let dec := pad_right decimals dec0 in
        if negb (all_zero (skipn decimals dec))
        then Err (numeric_fault "too many decimals for format")
        else
          let dec' := firstn decimals dec in
          let v := Digits.val (whole ++ dec') in
          let v' := if neg then - v else v in
          if in_range v' then Ok v' else Err (numeric_fault "overflow")
  end.

(** [parseEther(ether) = parseUnits(ether, 18)] *)
Definition parseEther (ether : string) : result Z := fromString ether.

(** [while (str.length <= decimals) { str = Zeros + str; }] *)
Fixpoint pad_left (fuel : nat) (s : chars) : chars :=
  match fuel with
  | O => s
  | S f =>
      if Nat.leb (List.length s) decimals
      then pad_left f (lit "0000" ++ s)
      else s
  end.

(** [while (str[0] === "0" && str[1] !== ".") { str = str.substring(1); }] *)
Fixpoint trim_leading (s : chars) : chars :=
  match s with
  | c :: r =>
      if Ascii.eqb c "0" &&
         negb match r with d :: _ => Ascii.eqb d "." | [] => false end
      then trim_leading r
      else s
  | [] => s
  end.

(** [while (str[str.length - 1] === "0" && str[str.length - 2] !== ".")
      { str = str.substring(0, str.length - 1); }] *)
Definition trim_trailing (s : chars) : chars :=
  rev (trim_leading (rev s)).

(** The library's [toString(val, decimals)] for [decimals = 18]. *)
Definition toString (v : Z) : chars :=
  let negative := if v <? 0 then lit "-" else [] in
  let s := pad_left (S decimals) (Digits.of_Z (Z.abs v)) in
  let index := (List.length s - decimals)%nat in
  let s1 := firstn index s ++ lit "." ++ skipn index s in
  negative ++ trim_trailing (trim_leading s1).

(** [formatEther(wei) = formatUnits(wei, 18)]:
    [FixedNumber.fromValue(wei, 18, { decimals: 18, width: 512 }).toString()] *)
Definition formatEther (wei : Z) : result string :=
  if in_range wei then Ok (str (toString wei))
  else Err (numeric_fault "overflow").

End Ethers.

(* ===================================================================== *)
(** * Awaited calls and asynchronous functions *)
(* ===================================================================== *)

Definition address : Type := string.

(** Handles of the wallet and of the ledger client. *)
Record Provider : Type := { provider_id : nat }.
Record Signer : Type := { signer_id : nat }.
Record Contract : Type := { target : string; runner : Signer }.
Record Tx : Type := { tx_hash : string }.

Record File : Type := { file_name : string; file_body : string }.

(** An argument the ledger client converts to an integer: a [bigint], a
    [number] or a [string]. *)
Inductive BigNumberish : Type :=
| OfBigInt (z : Z)
| OfNumber (x : Number.number)
| OfString (s : string).

(** The first component of [contract.getLand(id)]. *)
Record LandOnchain : Type := {
  landId : Z;
  status : Z;
  metadataCID : string
}.

(** The reply of [fetch]: its [ok] flag and what [await resp.json()]
    yields. *)
Record Response : Type := { ok : bool; json_body : result JS.value }.

(** The calls a function awaits.  ([new Contract], [new Blob] and
    [new File] build values and are not calls; [console] output is left
    out: it changes neither results nor control flow.) *)
Inductive call : Type :=
(* wallet: ./provider and ethers *)
| GetWeb3ProviderAndSigner
| SignerGetAddress (s : Signer)
| SignerSignMessage (s : Signer) (msg : option string)
| NewBrowserProvider
| ProviderGetSigner (p : Provider)
(* ledger: the LandRegistry contract *)
| GetOwnedLands (ct : Contract) (user : address)
| GetAllLandIds (ct : Contract)
| GetLand (ct : Contract) (id : Z)
| LandPrices (ct : Contract) (id : BigNumberish)
| RegisterLand (ct : Contract) (to : address) (geranCid publicCid : string)
    (priceWei : Z)
| ListLandForSale (ct : Contract) (id : string) (priceWei : Z)
| RequestToBuy (ct : Contract) (id : string) (value : Z)
| TransferLandOwnership (ct : Contract) (id : string) (buyer : address)
| TxWait (tx : Tx)
(* content store: Lighthouse, Kavach and the IPFS gateway *)
| KavachGetAuthMessage (addr : address)
| KavachTransferOwnership (addr : address) (cid : string)
    (newOwner : address) (signature : string) (resetSharedTo : bool)
| LighthouseUploadEncrypted (files : list File) (apiKey : string)
    (publicKey : address) (signedMessage : string)
| LighthouseUpload (files : list File) (apiKey : string)
| Fetch (url : string)
| ResponseJson (resp : Response)
(* clock: new Date().toISOString() *)
| DateNowISO.

(** What an awaited call yields when it does not reject.  [null] and
    missing fields are [None]; the [data] array of an encrypted upload is
    the list of its [Hash] fields. *)
Definition answer (c : call) : Type :=
  match c with
  | GetWeb3ProviderAndSigner => option Signer
  | SignerGetAddress _ => address
  | SignerSignMessage _ _ => string
  | NewBrowserProvider => Provider
  | ProviderGetSigner _ => Signer
  | GetOwnedLands _ _ => list Z
  | GetAllLandIds _ => list Z
  | GetLand _ _ => (LandOnchain * address * string)%type
  | LandPrices _ _ => Z
  | RegisterLand _ _ _ _ _ => Tx
  | ListLandForSale _ _ _ => Tx
  | RequestToBuy _ _ _ => Tx
  | TransferLandOwnership _ _ _ => Tx
  | TxWait _ => unit
  | KavachGetAuthMessage _ => option string
  | KavachTransferOwnership _ _ _ _ _ => JS.value
  | LighthouseUploadEncrypted _ _ _ _ => list string
  | LighthouseUpload _ _ => string
  | Fetch _ => Response
  | ResponseJson _ => JS.value
  | DateNowISO => string
  end.

(** An asynchronous function body: it returns, throws, or awaits a call
    and continues with its outcome. *)
Inductive Prog (A : Type) : Type :=
| Ret (a : A)
| Throw (e : JS.Error)
| Await (c : call) (k : result (answer c) -> Prog A).
Arguments Ret {A} a.
Arguments Throw {A} e.
Arguments Await {A} c k.

Fixpoint bind {A B : Type} (p : Prog A) (f : A -> Prog B) : Prog B :=
  match p with
  | Ret a => f a
  | Throw e => Throw e
  | Await c k => Await c (fun r => bind (k r) f)
  end.

(** [try { p } catch (e) { h e }] *)
Fixpoint try_catch {A : Type} (p : Prog A) (h : JS.Error -> Prog A) : Prog A :=
  match p with
  | Ret a => Ret a
  | Throw e => h e
  | Await c k => Await c (fun r => try_catch (k r) h)
  end.

(** [await c]: a rejection is thrown at the point of the [await]. *)
Definition await (c : call) : Prog (answer c) :=
  Await c (fun r => match r with Ok v => Ret v | Err e => Throw e end).

(** A synchronous library function that may throw. *)
Definition lift {A : Type} (r : result A) : Prog A :=
  match r with Ok v => Ret v | Err e => Throw e end.

Declare Scope prog_scope.
Delimit Scope prog_scope with prog.
Notation "x <- p ;; q" := (bind p (fun x => q))
  (at level 61, p at next level, right associativity) : prog_scope.
Notation "' pat <- p ;; q" := (bind p (fun x => match x with pat => q end))
  (at level 61, pat pattern, p at next level, right associativity) : prog_scope.
Local Open Scope prog_scope.

(** ** The environment *)

(** The collaborators: the outcome of every call.  What [resp.json()]
    yields belongs to the reply it is called on. *)
Definition world : Type := forall c : call, result (answer c).

Definition respond (w : world) (c : call) : result (answer c) :=
  match c as c0 return result (answer c0) with
  | ResponseJson resp => json_body resp
  | c0 => w c0
  end.

(** Running one function alone: the calls it makes, in order, and its
    outcome. *)
Fixpoint run {A : Type} (w : world) (p : Prog A) : list call * result A :=
  match p with
  | Ret a => ([], Ok a)
  | Throw e => ([], Err e)
  | Await c k =>
      let '(t, r) := run w (k (respond w c)) in (c :: t, r)
  end.

Definition trace {A : Type} (w : world) (p : Prog A) : list call :=
  fst (run w p).

Definition outcome {A : Type} (w : world) (p : Prog A) : result A :=
  snd (run w p).

(* ===================================================================== *)
(** * [src/modals/EditLandModal.tsx] *)
(* ===================================================================== *)

Inductive Status : Type := Active | ForSale | PendingApproval | Approved.

Definition statusToEnum (status : Status) : Z :=
  match status with
  | Active => 0
  | ForSale => 1
  | PendingApproval => 2
  | Approved => 3
  end.

Definition RM_PER_ETH : Number.number := Number.of_Z 4000.

(* ===================================================================== *)
(** * [GovLand/src/lib/contracts.ts] *)
(* ===================================================================== *)

(** [import.meta.env] *)
Record ImportMetaEnv : Type := {
  VITE_CONTRACT_ADDRESS : string;
  VITE_LIGHTHOUSE_API_KEY : string
}.

Record Account : Type := {
  signer : Signer;
  contract : Contract;
  userAddress : address
}.


(** [interface YourLand].  The fields copied from the fetched document
    hold whatever the document holds. *)
Record YourLand : Type := {
  yl_landId : string;
  yl_status : Z;
  yl_titleNumber : JS.value;
  yl_landType : JS.value;
  yl_username : JS.value;
  yl_priceRM : JS.value;
  yl_area : JS.value;
  yl_geranCid : JS.value;
  yl_geranUrl : string;
  yl_timestamp : JS.value;
  yl_owner : string;
  yl_metadataCID : string
}.



(** The two record literals of [getYourLands] and [fetchAllLands], which
    differ in [priceRM] only: the one returned when no document could be
    loaded and the one built from the document. *)
Definition yl_unavailable (id : string) (statusCode : Z) (ownerAddr : string)
  (metadataCID : string) (priceRM : JS.value) : YourLand :=
  {| yl_landId := id;
     yl_status := statusCode;
     yl_titleNumber := JS.Str EmptyString;
     yl_landType := JS.Str EmptyString;
     yl_username := JS.Str EmptyString;
     yl_priceRM := priceRM;
     yl_area := JS.Str EmptyString;
     yl_geranCid := JS.Str EmptyString;
     yl_geranUrl := EmptyString;
     yl_timestamp := JS.Str EmptyString;
     yl_owner := ownerAddr;
     yl_metadataCID := metadataCID |}.

(** [id.toString()] for a [bigint]. *)
Definition BigInt_toString (z : Z) : string :=
  str ((if z <? 0 then lit "-" else []) ++ Digits.of_Z (Z.abs z)).

Definition gateway (c : JS.value) : string :=
  ("https://gateway.lighthouse.storage/ipfs/" ++ JS.toString c)%string.

Definition yl_resolved (id : string) (statusCode : Z) (ownerAddr : string)
  (metadataCID : string) (priceRM : JS.value) (jsonMeta : JS.value)
  : YourLand :=
  let geranCid := JS.get jsonMeta "geranCid" in
  {| yl_landId := id;
     yl_status := statusCode;
     yl_titleNumber := JS.get jsonMeta "titleNumber";
     yl_landType := JS.get jsonMeta "landType";
     yl_username := JS.get jsonMeta "username";
     yl_priceRM := priceRM;
     yl_area := JS.get jsonMeta "area";
     yl_geranCid := geranCid;
     yl_geranUrl := gateway geranCid;
     yl_timestamp := JS.get jsonMeta "timestamp";
     yl_owner := ownerAddr;
     yl_metadataCID := metadataCID |}.

(** The message of the error thrown for a truthy [transferNFT.error]. *)
Definition error_text (error : JS.value) : string :=
  if JS.typeof_object error
  then JS.JSON_stringify error
  else JS.toString error.

(** [metadataObj] of [listingLand]: the area is a fixed placeholder. *)
Definition listing_metadata
  (titleNumber landType username geranCid timestamp : string) : JS.value :=
  JS.Obj [("titleNumber", JS.Str titleNumber);
          ("landType", JS.Str landType);
          ("username", JS.Str username);
          ("area", JS.Str "100 m2");
          ("geranCid", JS.Str geranCid);
          ("timestamp", JS.Str timestamp)].

Section Contracts.

Variable env : ImportMetaEnv.

Definition CONTRACT_ADDRESS : string := VITE_CONTRACT_ADDRESS env.

Definition connectAccount : Prog (option Account) :=
  ws <- await GetWeb3ProviderAndSigner ;;
  match ws with
  | None => Ret None
  | Some sg =>
      userAddress <- await (SignerGetAddress sg) ;;
      let contract := {| target := CONTRACT_ADDRESS; runner := sg |} in
      Ret (Some {| signer := sg; contract := contract;
                   userAddress := userAddress |})
  end.




(** [try { resp = await fetch(url); if (resp.ok) jsonMeta = await
    resp.json(); } catch {}] with [jsonMeta] initially [null]. *)
Definition fetch_metadata (publicCID : string) : Prog JS.value :=
  try_catch
    (resp <- await (Fetch (gateway (JS.Str publicCID))) ;;
     if ok resp then await (ResponseJson resp) else Ret (JS.Null : JS.value))
    (fun _ => Ret JS.Null).

Definition getYourLands_task (contract : Contract) (idBigint : Z)
  : Prog YourLand :=
  let id := BigInt_toString idBigint in
  ' (landOnchain, ownerAddr, publicCID) <- await (GetLand contract idBigint) ;;
  let statusCode := status landOnchain in
  let metadataCID := metadataCID landOnchain in
  jsonMeta <- fetch_metadata publicCID ;;
  if negb (JS.truthy jsonMeta)
  then Ret (yl_unavailable id statusCode ownerAddr metadataCID
              (JS.Str EmptyString))
  else Ret (yl_resolved id statusCode ownerAddr metadataCID
              (JS.get jsonMeta "priceRM") jsonMeta).

Definition getYourLands (contract : Contract) (userAddress : address)
  : Prog (list (Prog YourLand)) :=
  landIds <- await (GetOwnedLands contract userAddress) ;;
  Ret (map (getYourLands_task contract) landIds).

Definition fetchLandPrice (landId : Number.number) : Prog string :=
  try_catch
    (provider <- await NewBrowserProvider ;;
     sg <- await (ProviderGetSigner provider) ;;
     let contract := {| target := CONTRACT_ADDRESS; runner := sg |} in
     price <- await (LandPrices contract (OfNumber landId)) ;;
     lift (Ethers.formatEther price))
    (fun _ => Ret "0").

(** The conversion of [fetchAllLands]: wei to ETH, ETH to RM at
    [RM_PER_ETH], printed with two decimals. *)
Definition wei_to_rm (priceWei : Z) : result string :=
  match Ethers.formatEther priceWei with
  | Err e => Err e
  | Ok formatted =>
      let ethValue := Number.parseFloat formatted in
      let PriceRM := Number.mul ethValue RM_PER_ETH in
      Ok (Number.toFixed 2 PriceRM)
  end.

Definition fetchAllLands_task (contract : Contract) (idBigint : Z)
  : Prog YourLand :=
  let id := BigInt_toString idBigint in
  ' (landOnchain, ownerAddr, publicCID) <- await (GetLand contract idBigint) ;;
  let statusCode := status landOnchain in
  let metadataCID := metadataCID landOnchain in
  priceWei <- await (LandPrices contract (OfBigInt idBigint)) ;;
  priceRM <- lift (wei_to_rm priceWei) ;;
  jsonMeta <- fetch_metadata publicCID ;;
  if negb (JS.truthy jsonMeta)
  then Ret (yl_unavailable id statusCode ownerAddr metadataCID
              (JS.Str priceRM))
  else Ret (yl_resolved id statusCode ownerAddr metadataCID
              (JS.Str priceRM) jsonMeta).

Definition fetchAllLands (contract : Contract)
  : Prog (list (Prog YourLand)) :=
  landIds <- await (GetAllLandIds contract) ;;
  Ret (map (fetchAllLands_task contract) landIds).

(** The conversion shared by [listingLand], [listLandForSale] and
    [requestToBuyLand]: RM to ETH at [RM_PER_ETH], rejected with
    [new Error(msg)] when not above zero, then ETH to wei. *)
Definition price_to_wei (priceRM : string) (msg : string) : result Z :=
  let rmValue := Number.parseFloat priceRM in
  let ethValue := Number.div rmValue RM_PER_ETH in
  if Number.leb ethValue Number.zero then Err (JS.new_Error msg)
  else Ethers.parseEther (Number.toString ethValue).

Definition listingLand (titleNumber landType priceRM : string)
  (geranFile : File) (username : string) : Prog Tx :=
  ws <- connectAccount ;;
  match ws with
  | None => Throw (JS.new_Error "MetaMask 接続に失敗しました。")
  | Some acc =>
      challenge <- await (KavachGetAuthMessage (userAddress acc)) ;;
      signature <- await (SignerSignMessage (signer acc) challenge) ;;
      uploadCertResp <-
        await (LighthouseUploadEncrypted [geranFile]
                 (VITE_LIGHTHOUSE_API_KEY env) (userAddress acc) signature) ;;
      match uploadCertResp with
      | [] => Throw (JS.TypeError_read "Hash")
      | geranCid :: _ =>
          timestamp <- await DateNowISO ;;
          let metadataObj :=
            listing_metadata titleNumber landType username geranCid
              timestamp in
          let jsonString := JS.JSON_stringify metadataObj in
          let metaFile :=
            {| file_name := "land_listing_metadata.json";
               file_body := jsonString |} in
          publicCid <-
            await (LighthouseUpload [metaFile] (VITE_LIGHTHOUSE_API_KEY env)) ;;
          priceWei <-
            lift (price_to_wei priceRM "Price must be at least MYR 4000") ;;
          await (RegisterLand (contract acc) (userAddress acc)
                   geranCid publicCid priceWei)
      end
  end.

Definition listLandForSale (landId priceRM : string) : Prog Tx :=
  ws <- connectAccount ;;
  match ws with
  | None => Throw (JS.new_Error "MetaMask not connected")
  | Some acc =>
      priceWei <- lift (price_to_wei priceRM "Price must be positive") ;;
      await (ListLandForSale (contract acc) landId priceWei)
  end.

Definition requestToBuyLand (landId priceRM : string) : Prog Tx :=
  ws <- connectAccount ;;
  match ws with
  | None => Throw (JS.new_Error "MetaMask not connected")
  | Some acc =>
      priceWei <- lift (price_to_wei priceRM "Invalid price") ;;
      await (RequestToBuy (contract acc) landId priceWei)
  end.

Definition signAuthMessage (addr : address) (sg : Signer) : Prog string :=
  authResp <- await (KavachGetAuthMessage addr) ;;
  match authResp with
  | None => Throw (JS.new_Error "No Kavach auth challenge found")
  | Some message => await (SignerSignMessage sg (Some message))
  end.

Definition approvePurchase (landId : string) (buyerAddress : address)
  (privateCID : string) : Prog unit :=
  ws <- connectAccount ;;
  match ws with
  | None => Throw (JS.new_Error "MetaMask not connected")
  | Some acc =>
      (* First: execute the on-chain transfer *)
      tx <- await (TransferLandOwnership (contract acc) landId buyerAddress) ;;
      _ <- await (TxWait tx) ;;
      (* Then: transfer encrypted access off-chain via Lighthouse *)
      signature <- signAuthMessage (userAddress acc) (signer acc) ;;
      transferNFT <-
        await (KavachTransferOwnership (userAddress acc) privateCID
                 buyerAddress signature true) ;;
      let error := JS.optional_get transferNFT "error" in
      if JS.truthy error
      then Throw (JS.new_Error (error_text error))
      else Ret tt
  end.

End Contracts.

(* ===================================================================== *)
(** * [Promise.all] over concurrently running async functions *)
(* ===================================================================== *)

Module Pool.

(** What the event loop records: task [i] issued a call, or the call
    task [i] was waiting for completed. *)
Inductive event : Type :=
| Issued (i : nat) (c : call)
| Completed (i : nat) (c : call).

Section Tasks.

Variable B : Type.

(** The invoked async functions, each suspended at its pending call or
    settled; the record of events; and the first rejection so far,
    which is what [Promise.all] rejects with. *)
Record pool : Type := {
  tasks : list (Prog B);
  log : list event;
  rejection : option JS.Error
}.

Definition empty : pool :=
  {| tasks := []; log := []; rejection := None |}.

Definition issued (i : nat) (p : Prog B) : list event :=
  match p with
  | Await c _ => [Issued i c]
  | _ => []
  end.

Definition note (r : option JS.Error) (p : Prog B) : option JS.Error :=
  match r, p with
  | None, Throw e => Some e
  | _, _ => r
  end.

(** Invoking an async function: its body runs up to its first
    [await]. *)
Definition spawn (p : Prog B) (pl : pool) : pool :=
  {| tasks := tasks pl ++ [p];
     log := log pl ++ issued (List.length (tasks pl)) p;
     rejection := note (rejection pl) p |}.

(** [ids.map(async (id) => ...)]: the functions are invoked in order. *)
Definition start (ts : list (Prog B)) : pool :=
  fold_left (fun pl p => spawn p pl) ts empty.

Fixpoint update (i : nat) (x : Prog B) (l : list (Prog B))
  : list (Prog B) :=
  match l, i with
  | [], _ => []
  | _ :: r, O => x :: r
  | y :: r, S j => y :: update j x r
  end.

(** The pending call of task [i] completes: the task resumes and runs
    up to its next [await] or to its end. *)
Definition deliver (w : world) (i : nat) (pl : pool) : pool :=
  match nth_error (tasks pl) i with
  | Some (Await c k) =>
      let p' := k (respond w c) in
      {| tasks := update i p' (tasks pl);
         log := log pl ++ Completed i c :: issued i p';
         rejection := note (rejection pl) p' |}
  | _ => pl
  end.

(** Calls complete in the order of a schedule, a list of task
    indices. *)
Definition run_schedule (w : world) (sched : list nat) (pl : pool) : pool :=
  fold_left (fun pl i => deliver w i pl) sched pl.

Fixpoint values (ts : list (Prog B)) : option (list B) :=
  match ts with
  | [] => Some []
  | Ret v :: r =>
      match values r with
      | Some vs => Some (v :: vs)
      | None => None
      end
  | _ :: _ => None
  end.

(** The state of [Promise.all(tasks)]: rejected with the first
    rejection, fulfilled with the values in the order of the tasks
    when all have returned, pending ([None]) otherwise. *)
Definition settled (pl : pool) : option (result (list B)) :=
  match rejection pl with
  | Some e => Some (Err e)
  | None =>
      match values (tasks pl) with
      | Some vs => Some (Ok vs)
      | None => None
      end
  end.

Definition promise_all (w : world) (sched : list nat)
  (ts : list (Prog B)) : option (result (list B)) :=
  settled (run_schedule w sched (start ts)).

(** A function that awaits [Promise.all] of the tasks it created. *)
Definition run_all (w : world) (sched : list nat)
  (p : Prog (list (Prog B))) : option (result (list B)) :=
  match outcome w p with
  | Err e => Some (Err e)
  | Ok ts => promise_all w sched ts
  end.

(** One task on its own: [n] completions of its pending calls. *)
Definition step (w : world) (p : Prog B) : Prog B :=
  match p with
  | Await c k => k (respond w c)
  | _ => p
  end.

Fixpoint advance (w : world) (n : nat) (p : Prog B) : Prog B :=
  match n with
  | O => p
  | S m => advance w m (step w p)
  end.

(** A schedule is complete when it completes every call of every
    task. *)
Definition complete (w : world) (ts : list (Prog B)) (sched : list nat)
  : Prop :=
  forall i p, nth_error ts i = Some p ->
    (List.length (trace w p) <= count_occ Nat.eq_dec sched i)%nat.

(** The values of the tasks run one by one, when all of them return. *)
Fixpoint seq_values (w : world) (ts : list (Prog B)) : option (list B) :=
  match ts with
  | [] => Some []
  | p :: r =>
      match outcome w p, seq_values w r with
      | Ok v, Some vs => Some (v :: vs)
      | _, _ => None
      end
  end.

(** A settled task holding the outcome of [p] run on its own. *)
Definition final (w : world) (p : Prog B) : Prog B :=
  match outcome w p with
  | Ok v => Ret v
  | Err e => Throw e
  end.

(** Every recorded rejection is the rejection of a task. *)
Definition rejection_sound (pl : pool) : Prop :=
  forall e, rejection pl = Some e ->
    exists i, nth_error (tasks pl) i = Some (Throw e).


(** Completing the calls task by task. *)
Fixpoint sequential (w : world) (i : nat) (ts : list (Prog B)) : list nat :=
  match ts with
  | [] => []
  | p :: r => repeat i (List.length (trace w p)) ++ sequential w (S i) r
  end.

End Tasks.

End Pool.

(* ===================================================================== *)
(** * Vocabulary of the properties *)
(* ===================================================================== *)

(** ** The collaborator behind a call *)

(** Calls to the ledger: the reads and the transactions of the contract
    and the wait for a confirmation. *)
Definition is_ledger (c : call) : bool :=
  match c with
  | GetOwnedLands _ _ | GetAllLandIds _ | GetLand _ _ | LandPrices _ _
  | RegisterLand _ _ _ _ _ | ListLandForSale _ _ _ | RequestToBuy _ _ _
  | TransferLandOwnership _ _ _ | TxWait _ => true
  | _ => false
  end.

(** Calls to the content store: Lighthouse, Kavach and the gateway. *)
Definition is_content_store (c : call) : bool :=
  match c with
  | KavachGetAuthMessage _ | KavachTransferOwnership _ _ _ _ _
  | LighthouseUploadEncrypted _ _ _ _ | LighthouseUpload _ _
  | Fetch _ | ResponseJson _ => true
  | _ => false
  end.

(** ** Facts about a world *)

(** The wallet connects as [acc]. *)
Definition connects (env : ImportMetaEnv) (w : world) (acc : Account) : Prop :=
  w GetWeb3ProviderAndSigner = Ok (Some (signer acc)) /\
  w (SignerGetAddress (signer acc)) = Ok (userAddress acc) /\
  contract acc = {| target := VITE_CONTRACT_ADDRESS env; runner := signer acc |}.

(** The on-chain phase of a transfer: the error of the ledger call or of
    its confirmation, if one of them fails. *)
Definition ledger_failure (w : world) (ct : Contract) (id : string)
  (buyer : address) : option JS.Error :=
  match w (TransferLandOwnership ct id buyer) with
  | Err e => Some e
  | Ok tx =>
      match w (TxWait tx) with
      | Err e => Some e
      | Ok _ => None
      end
  end.

(** The document the gateway serves for a content identifier; [None] is a
    resolution failure: the request fails, the reply is not [ok], its body
    does not parse, or the document is a falsy value. *)
Definition resolution (w : world) (publicCID : string) : option JS.value :=
  match w (Fetch (gateway (JS.Str publicCID))) with
  | Ok resp =>
      if ok resp then
        match json_body resp with
        | Ok v => if JS.truthy v then Some v else None
        | Err _ => None
        end
      else None
  | Err _ => None
  end.

(** The call a suspended function waits for. *)
Definition pending {B : Type} (p : Prog B) : option call :=
  match p with
  | Await c _ => Some c
  | _ => None
  end.

Definition pending_of {B : Type} (pl : Pool.pool B) (i : nat) : option call :=
  match nth_error (Pool.tasks pl) i with
  | Some p => pending p
  | None => None
  end.

(** [k] rounds in which each of [n] tasks has one call completed. *)
Definition rounds (k n : nat) : list nat :=
  List.concat (repeat (seq 0 n) k).

(** ** The transition table of the specification *)

Inductive Event : Type := ListForSale | BuyerCommits | OwnerApproves | Cancel.

(** The table of section 4.3 of the specification, for comparison with
    what the client checks: the target state of a listed pair. *)
Definition spec_transition (s : Status) (ev : Event) : option Status :=
  match s, ev with
  | Active, ListForSale => Some ForSale
  | ForSale, BuyerCommits => Some PendingApproval
  | PendingApproval, OwnerApproves => Some Approved
  | ForSale, Cancel | PendingApproval, Cancel => Some Active
  | _, _ => None
  end.

(* ===================================================================== *)
(** * Sample worlds *)
(* ===================================================================== *)

Module Demo.

Definition env : ImportMetaEnv :=
  {| VITE_CONTRACT_ADDRESS := "0xC0FFEE"; VITE_LIGHTHOUSE_API_KEY := "key" |}.

Definition sg : Signer := {| signer_id := 1 |}.

Definition ct : Contract := {| target := "0xC0FFEE"; runner := sg |}.

Definition acc : Account :=
  {| signer := sg; contract := ct; userAddress := "0xA11CE" |}.

Definition deed : File := {| file_name := "geran.pdf"; file_body := "%PDF" |}.

Definition tx : Tx := {| tx_hash := "0x7a" |}.

Definition document : JS.value :=
  JS.Obj [("titleNumber", JS.Str "GRN 1");
          ("landType", JS.Str "Residential");
          ("username", JS.Str "alice");
          ("area", JS.Str "100 m2");
          ("geranCid", JS.Str "QmGeran");
          ("timestamp", JS.Str "2025-06-01T00:00:00.000Z")].

(** The wallet's error when the user declines a request. *)
Definition user_rejected : JS.Error :=
  {| JS.name := "Error"; JS.message := "user rejected action";
     JS.code := Some "ACTION_REJECTED" |}.

Definition unreachable : JS.Error :=
  {| JS.name := "TypeError"; JS.message := "Failed to fetch";
     JS.code := None |}.

(** Every collaborator answers.  Every parcel is [Approved], owned by
    another account, priced at 1.25 ETH; parcel [n] has the public
    document [QmMeta<n>]. *)
Definition base : world := fun c =>
  match c as c0 return result (answer c0) with
  | GetWeb3ProviderAndSigner => Ok (Some sg)
  | SignerGetAddress _ => Ok "0xA11CE"
  | SignerSignMessage _ _ => Ok "0x5197"
  | NewBrowserProvider => Ok {| provider_id := 1 |}
  | ProviderGetSigner _ => Ok sg
  | GetOwnedLands _ _ => Ok [7; 8; 9]
  | GetAllLandIds _ => Ok [7; 8; 9]
  | GetLand _ id =>
      Ok ({| landId := id; status := statusToEnum Approved;
             metadataCID := "QmDeed" |},
          "0x0B0B", ("QmMeta" ++ BigInt_toString id)%string)
  | LandPrices _ _ => Ok 1250000000000000000
  | RegisterLand _ _ _ _ _ => Ok tx
  | ListLandForSale _ _ _ => Ok tx
  | RequestToBuy _ _ _ => Ok tx
  | TransferLandOwnership _ _ _ => Ok tx
  | TxWait _ => Ok tt
  | KavachGetAuthMessage _ => Ok (Some "challenge")
  | KavachTransferOwnership _ _ _ _ _ => Ok (JS.Obj [("data", JS.Str "ok")])
  | LighthouseUploadEncrypted _ _ _ _ => Ok ["QmGeran"]
  | LighthouseUpload _ _ => Ok "QmPublic"
  | Fetch _ => Ok {| ok := true; json_body := Ok document |}
  | ResponseJson resp => json_body resp
  | DateNowISO => Ok "2025-06-01T00:00:00.000Z"
  end.

(** The content store refuses the access regrant. *)
Definition regrant_denied : world := fun c =>
  match c as c0 return result (answer c0) with
  | KavachTransferOwnership _ _ _ _ _ =>
      Ok (JS.Obj [("error", JS.Str "denied")])
  | c0 => base c0
  end.

(** The user declines the transaction of the on-chain phase. *)
Definition transaction_declined : world := fun c =>
  match c as c0 return result (answer c0) with
  | TransferLandOwnership _ _ _ => Err user_rejected
  | c0 => base c0
  end.

(** The user declines the signature of the off-chain phase. *)
Definition signature_declined : world := fun c =>
  match c as c0 return result (answer c0) with
  | SignerSignMessage _ _ => Err user_rejected
  | c0 => base c0
  end.

(** The gateway cannot be reached for the document of parcel 8. *)
Definition gateway_down : world := fun c =>
  match c as c0 return result (answer c0) with
  | Fetch url =>
      if String.eqb url (gateway (JS.Str "QmMeta8")) then Err unreachable
      else base (Fetch url)
  | c0 => base c0
  end.

(** No parcel has a price. *)
Definition unlisted : world := fun c =>
  match c as c0 return result (answer c0) with
  | LandPrices _ _ => Ok 0
  | c0 => base c0
  end.

(** No wallet is installed. *)
Definition no_wallet : world := fun c =>
  match c as c0 return result (answer c0) with
  | NewBrowserProvider => Err unreachable
  | c0 => base c0
  end.

End Demo.

(* ===================================================================== *)
(** * Vocabulary of the aggregation and price properties *)
(* ===================================================================== *)


(** The same for [getYourLands]. *)
Definition your_slot (w : world) (ct : Contract) (id : Z) : option YourLand :=
  match w (GetLand ct id) with
  | Ok (land, owner, publicCID) =>
      Some match resolution w publicCID with
           | Some meta =>
               yl_resolved (BigInt_toString id) (status land) owner
                 (metadataCID land) (JS.get meta "priceRM") meta
           | None =>
               yl_unavailable (BigInt_toString id) (status land) owner
                 (metadataCID land) (JS.Str EmptyString)
           end
  | Err _ => None
  end.

(** The same for [fetchAllLands], whose price is read from the ledger. *)
Definition all_slot (w : world) (ct : Contract) (id : Z) : option YourLand :=
  match w (GetLand ct id) with
  | Ok (land, owner, publicCID) =>
      match w (LandPrices ct (OfBigInt id)) with
      | Ok priceWei =>
          match wei_to_rm priceWei with
          | Ok priceRM =>
              Some match resolution w publicCID with
                   | Some meta =>
                       yl_resolved (BigInt_toString id) (status land) owner
                         (metadataCID land) (JS.Str priceRM) meta
                   | None =>
                       yl_unavailable (BigInt_toString id) (status land) owner
                         (metadataCID land) (JS.Str priceRM)
                   end
          | Err _ => None
          end
      | Err _ => None
      end
  | Err _ => None
  end.



(** A value the price check turns away: not above zero, [NaN] or
    infinite. *)
Definition not_a_price (x : Number.number) : Prop :=
  Number.leb x Number.zero = true \/ x = Number.NaN \/ x = Number.Infinity.

(** The function throws without having called the ledger. *)
Definition stops_before_ledger {A : Type} (w : world) (p : Prog A) : Prop :=
  (exists e, outcome w p = Err e) /\
  Forall (fun c => is_ledger c = false) (trace w p).

(* ===================================================================== *)
(** * Facts and properties *)
(* ===================================================================== *)

Unset Implicit Arguments.

(* --------------------------------------------------------------------- *)
(** ** Running a function *)
(* --------------------------------------------------------------------- *)

Section RunFacts.
Variable w : world.

Lemma run_bind {A B} (p : Prog A) (f : A -> Prog B) :
  run w (bind p f) =
  match run w p with
  | (t, Ok a) => let '(t', r) := run w (f a) in (t ++ t', r)
  | (t, Err e) => (t, Err e)
  end.
Proof.
  induction p as [a|e|c k IH]; simpl.
  - now destruct (run w (f a)).
  - reflexivity.
  - rewrite IH. destruct (run w (k (respond w c))) as [t [a|e]]; simpl.
    + now destruct (run w (f a)).
    + reflexivity.
Qed.

Lemma run_try_catch {A} (p : Prog A) (h : JS.Error -> Prog A) :
  run w (try_catch p h) =
  match run w p with
  | (t, Ok a) => (t, Ok a)
  | (t, Err e) => let '(t', r) := run w (h e) in (t ++ t', r)
  end.
Proof.
  induction p as [a|e|c k IH]; simpl.
  - reflexivity.
  - now destruct (run w (h e)).
  - rewrite IH. destruct (run w (k (respond w c))) as [t [a|e]]; simpl.
    + reflexivity.
    + now destruct (run w (h e)).
Qed.

Lemma run_await c : run w (await c) = ([c], respond w c).
Proof. unfold await. simpl. now destruct (respond w c). Qed.

Lemma run_lift {A} (r : result A) : run w (lift r) = ([], r).
Proof. now destruct r. Qed.

Lemma run_connectAccount env acc :
  connects env w acc ->
  run w (connectAccount env) =
  ([GetWeb3ProviderAndSigner; SignerGetAddress (signer acc)], Ok (Some acc)).
Proof.
  intros [H1 [H2 H3]]. unfold connectAccount.
  rewrite run_bind, run_await. simpl respond. rewrite H1.
  rewrite run_bind, run_await. simpl respond. rewrite H2. simpl.
  unfold CONTRACT_ADDRESS. rewrite <- H3. now destruct acc.
Qed.

(** The connection asks the wallet only. *)
Lemma connectAccount_calls env :
  Forall (fun c => is_ledger c = false /\ is_content_store c = false)
    (trace w (connectAccount env)).
Proof.
  unfold trace, connectAccount.
  rewrite run_bind, run_await. simpl respond.
  destruct (w GetWeb3ProviderAndSigner) as [[sg|]|e]; cbv beta iota.
  - rewrite run_bind, run_await. simpl respond.
    destruct (w (SignerGetAddress sg)); simpl; repeat constructor.
  - repeat constructor.
  - repeat constructor.
Qed.

End RunFacts.

Ltac awaited :=
  match goal with
  | |- context [@run ?A ?w (await ?c)] =>
      change (@run A w (await c)) with (@run (answer c) w (await c));
      rewrite (run_await w c)
  end.

Ltac answered H := simpl respond; rewrite H; cbv beta iota.

Ltac by_answer E :=
  unfold outcome; awaited; simpl respond; rewrite E; reflexivity.

(* --------------------------------------------------------------------- *)
(** ** [Promise.all]: the order of completion does not matter *)
(* --------------------------------------------------------------------- *)

Section PoolFacts.
Import Pool.
Local Open Scope nat_scope.
Variable B : Type.
Variable w : world.

Lemma outcome_step (p : Prog B) : outcome w (step w p) = outcome w p.
Proof.
  destruct p as [a|e|c k]; try reflexivity.
  unfold outcome; simpl. destruct (run w (k (respond w c))); reflexivity.
Qed.

Lemma outcome_advance n (p : Prog B) : outcome w (advance w n p) = outcome w p.
Proof.
  revert p; induction n as [|n IH]; intros p; simpl; [reflexivity|].
  rewrite IH. apply outcome_step.
Qed.

Lemma trace_step (p : Prog B) :
  List.length (trace w (step w p)) = pred (List.length (trace w p)).
Proof.
  destruct p as [a|e|c k]; try reflexivity.
  unfold trace; simpl. destruct (run w (k (respond w c))); reflexivity.
Qed.

Lemma advance_settled n (p : Prog B) :
  (List.length (trace w p) <= n)%nat -> advance w n p = final w p.
Proof.
  revert p; induction n as [|n IH]; intros p H.
  - destruct p as [a|e|c k]; try reflexivity.
    unfold trace in H; simpl in H.
    destruct (run w (k (respond w c))); simpl in H; lia.
  - simpl. rewrite IH.
    + unfold final. now rewrite outcome_step.
    + rewrite trace_step. lia.
Qed.

Lemma advance_Ret n (p : Prog B) v : advance w n p = Ret v -> outcome w p = Ok v.
Proof. intros H. rewrite <- (outcome_advance n), H. reflexivity. Qed.

Lemma advance_Throw n (p : Prog B) e : advance w n p = Throw e -> outcome w p = Err e.
Proof. intros H. rewrite <- (outcome_advance n), H. reflexivity. Qed.

Lemma tasks_spawn_all (ts : list (Prog B)) (pl : pool B) :
  tasks (fold_left (fun pl p => spawn p pl) ts pl) = tasks pl ++ ts.
Proof.
  revert pl; induction ts as [|p ts IH]; intros pl; simpl.
  - now rewrite app_nil_r.
  - rewrite IH. simpl. now rewrite <- app_assoc.
Qed.

Lemma tasks_start (ts : list (Prog B)) : tasks (start ts) = ts.
Proof. unfold start. now rewrite tasks_spawn_all. Qed.

Lemma nth_error_update i x (l : list (Prog B)) j :
  nth_error (update i x l) j =
  if Nat.eqb j i then option_map (fun _ => x) (nth_error l j)
  else nth_error l j.
Proof.
  revert i j; induction l as [|y l IH]; intros i j.
  - destruct i, j; simpl; try reflexivity. now destruct (Nat.eqb j i).
  - destruct i as [|i], j as [|j]; simpl; try reflexivity. apply IH.
Qed.

Lemma tasks_deliver i (pl : pool B) j :
  nth_error (tasks (deliver w i pl)) j =
  if Nat.eqb j i then option_map (step w) (nth_error (tasks pl) j)
  else nth_error (tasks pl) j.
Proof.
  unfold deliver.
  destruct (nth_error (tasks pl) i) as [[a|e|c k]|] eqn:E; simpl.
  1,2,4: destruct (Nat.eqb_spec j i) as [->|]; [rewrite E|]; reflexivity.
  rewrite nth_error_update.
  destruct (Nat.eqb_spec j i) as [->|]; [rewrite E|]; reflexivity.
Qed.

Lemma tasks_run_schedule sched (pl : pool B) j :
  nth_error (tasks (run_schedule w sched pl)) j =
  option_map (advance w (count_occ Nat.eq_dec sched j)) (nth_error (tasks pl) j).
Proof.
  revert pl; induction sched as [|i sched IH]; intros pl; simpl.
  - now destruct (nth_error (tasks pl) j).
  - unfold run_schedule in *; simpl. rewrite IH, tasks_deliver.
    destruct (Nat.eq_dec i j) as [->|N].
    + rewrite Nat.eqb_refl. now destruct (nth_error (tasks pl) j).
    + destruct (Nat.eqb_spec j i); [congruence|reflexivity].
Qed.

Lemma note_cases r (p : Prog B) e :
  note r p = Some e -> r = Some e \/ p = Throw e.
Proof.
  destruct r; simpl; [now left|].
  destruct p; try discriminate. intros [= ->]. now right.
Qed.

Lemma rejection_sound_spawn p (pl : pool B) :
  rejection_sound pl -> rejection_sound (spawn p pl).
Proof.
  intros H e He. simpl in He. apply note_cases in He as [He| ->].
  - destruct (H e He) as [i Hi]. exists i. simpl.
    rewrite nth_error_app1; [assumption|].
    apply nth_error_Some. congruence.
  - exists (List.length (tasks pl)). simpl.
    rewrite nth_error_app2, Nat.sub_diag by lia. reflexivity.
Qed.

Lemma rejection_sound_start (ts : list (Prog B)) : rejection_sound (start ts).
Proof.
  unfold start.
  assert (G : forall pl, rejection_sound pl ->
            rejection_sound (fold_left (fun pl p => spawn p pl) ts pl)).
  { induction ts as [|p ts IH]; intros pl H; simpl; [assumption|].
    apply IH, rejection_sound_spawn, H. }
  apply G. intros e He. discriminate.
Qed.

Lemma rejection_sound_deliver i (pl : pool B) :
  rejection_sound pl -> rejection_sound (deliver w i pl).
Proof.
  intros H e He.
  assert (K : forall j, nth_error (tasks pl) j = Some (Throw e) ->
            exists j', nth_error (tasks (deliver w i pl)) j' = Some (Throw e)).
  { intros j Hj. exists j. rewrite tasks_deliver.
    destruct (Nat.eqb j i); [rewrite Hj|]; auto. }
  unfold deliver in He.
  destruct (nth_error (tasks pl) i) as [[a|e'|c k]|] eqn:E;
    try (destruct (H e He) as [j Hj]; eauto).
  simpl in He. apply note_cases in He as [He|He].
  - destruct (H e He) as [j Hj]; eauto.
  - exists i. rewrite tasks_deliver, Nat.eqb_refl, E. simpl. now rewrite He.
Qed.

Lemma rejection_sound_run sched (pl : pool B) :
  rejection_sound pl -> rejection_sound (run_schedule w sched pl).
Proof.
  revert pl; induction sched as [|i sched IH]; intros pl H; [assumption|].
  apply IH, rejection_sound_deliver, H.
Qed.

Lemma seq_values_of_values (g : nat -> Prog B -> Prog B) :
  (forall j p v, g j p = Ret v -> outcome w p = Ok v) ->
  forall l l' vs,
    (forall j, nth_error l' j = option_map (g j) (nth_error l j)) ->
    values l' = Some vs -> seq_values w l = Some vs.
Proof.
  intros Hg l. revert g Hg.
  induction l as [|p l IH]; intros g Hg l' vs Hn Hv.
  - destruct l' as [|q l']; [simpl in *; congruence|].
    specialize (Hn 0%nat). discriminate.
  - destruct l' as [|q l']; [specialize (Hn 0%nat); discriminate|].
    pose proof (Hn 0%nat) as H0. simpl in H0. injection H0 as H0.
    simpl in Hv. destruct q as [v| |]; try discriminate.
    destruct (values l') as [vs'|] eqn:Ev; [|discriminate].
    injection Hv as <-. simpl.
    rewrite (Hg 0%nat p v) by congruence.
    assert (Hn' : forall j, nth_error l' j =
              option_map (g (S j)) (nth_error l j)) by (intros j; apply (Hn (S j))).
    now rewrite (IH (fun j => g (S j)) (fun j => Hg (S j)) l' vs' Hn' Ev).
Qed.

Lemma values_of_seq_values (g : nat -> Prog B -> Prog B) :
  forall l l' vs,
    (forall j, nth_error l' j = option_map (g j) (nth_error l j)) ->
    (forall j p, nth_error l j = Some p -> g j p = final w p) ->
    seq_values w l = Some vs -> values l' = Some vs.
Proof.
  intros l. revert g.
  induction l as [|p l IH]; intros g l' vs Hn Hg Hs.
  - destruct l' as [|q l']; [simpl in *; congruence|].
    specialize (Hn 0%nat). discriminate.
  - destruct l' as [|q l']; [specialize (Hn 0%nat); discriminate|].
    pose proof (Hn 0%nat) as H0. simpl in H0. injection H0 as H0.
    simpl in Hs. destruct (outcome w p) as [v|] eqn:Eo; [|discriminate].
    destruct (seq_values w l) as [vs'|] eqn:Es; [|discriminate].
    injection Hs as <-.
    rewrite (Hg 0%nat p eq_refl) in H0. unfold final in H0. rewrite Eo in H0.
    subst q. simpl.
    assert (Hn' : forall j, nth_error l' j =
              option_map (g (S j)) (nth_error l j)) by (intros j; apply (Hn (S j))).
    assert (Hg' : forall j q, nth_error l j = Some q -> g (S j) q = final w q)
      by (intros j q Hq; apply (Hg (S j)); exact Hq).
    now rewrite (IH (fun j => g (S j)) l' vs' Hn' Hg' eq_refl).
Qed.

Lemma seq_values_all_ok (l : list (Prog B)) vs i p :
  seq_values w l = Some vs -> nth_error l i = Some p ->
  exists v, outcome w p = Ok v /\ nth_error vs i = Some v.
Proof.
  revert vs i; induction l as [|q l IH]; intros vs i Hs Hn.
  - destruct i; discriminate.
  - simpl in Hs. destruct (outcome w q) as [v|] eqn:Eo; [|discriminate].
    destruct (seq_values w l) as [vs'|] eqn:Es; [|discriminate].
    injection Hs as <-. destruct i as [|i]; simpl in *.
    + injection Hn as <-. eauto.
    + eapply IH; eauto.
Qed.

(** Whatever the order of completion, a fulfilled [Promise.all] holds
    the values of the tasks in the order of the tasks. *)
Lemma promise_all_order sched (ts : list (Prog B)) vs :
  promise_all w sched ts = Some (Ok vs) -> seq_values w ts = Some vs.
Proof.
  unfold promise_all, settled. intros H.
  destruct (rejection _); [discriminate|].
  destruct (values _) as [vs'|] eqn:Ev; [|discriminate].
  injection H as ->.
  eapply (seq_values_of_values
            (fun j => advance w (count_occ Nat.eq_dec sched j))); eauto.
  - intros j p v. apply advance_Ret.
  - intros j. rewrite tasks_run_schedule, tasks_start. reflexivity.
Qed.

(** Once every call has completed, in whatever order, [Promise.all] is
    fulfilled when every task returns. *)
Lemma promise_all_complete sched (ts : list (Prog B)) vs :
  seq_values w ts = Some vs -> complete w ts sched ->
  promise_all w sched ts = Some (Ok vs).
Proof.
  intros Hs Hc. unfold promise_all, settled.
  destruct (rejection _) as [e|] eqn:Er.
  - exfalso.
    pose proof (rejection_sound_start ts) as Hr.
    apply (rejection_sound_run sched) in Hr.
    destruct (Hr _ Er) as [i Hi].
    rewrite tasks_run_schedule, tasks_start in Hi.
    destruct (nth_error ts i) as [p|] eqn:Ep; [|discriminate].
    simpl in Hi. injection Hi as Hi. apply advance_Throw in Hi.
    pose proof Hs as Hs'. eapply seq_values_all_ok in Hs' as [v [Hv _]]; [|exact Ep]. congruence.
  - erewrite (values_of_seq_values
                (fun j => advance w (count_occ Nat.eq_dec sched j))); eauto.
    + intros j. rewrite tasks_run_schedule, tasks_start. reflexivity.
    + intros j p Hp. apply advance_settled. apply (Hc j p Hp).
Qed.

Lemma count_occ_repeat_other (i j n : nat) :
  i <> j -> count_occ Nat.eq_dec (repeat i n) j = 0%nat.
Proof.
  intros N. induction n as [|n IH]; simpl; [reflexivity|].
  destruct (Nat.eq_dec i j); [contradiction|assumption].
Qed.

Lemma count_occ_repeat_same (i n : nat) :
  count_occ Nat.eq_dec (repeat i n) i = n.
Proof.
  induction n as [|n IH]; simpl; [reflexivity|].
  destruct (Nat.eq_dec i i); [now rewrite IH|contradiction].
Qed.

Lemma sequential_count (ts : list (Prog B)) : forall i0 j p,
  nth_error ts j = Some p ->
  count_occ Nat.eq_dec (sequential w i0 ts) (i0 + j) = List.length (trace w p).
Proof.
  induction ts as [|q ts IH]; intros i0 j p Hn; [destruct j; discriminate|].
  simpl. rewrite count_occ_app. destruct j as [|j]; simpl in Hn.
  - injection Hn as ->. rewrite Nat.add_0_r, count_occ_repeat_same.
    assert (G : forall (l : list (Prog B)) i1, (i0 < i1)%nat ->
              count_occ Nat.eq_dec (sequential w i1 l) i0 = 0%nat).
    { induction l as [|r l IHl]; intros i1 Hlt; simpl; [reflexivity|].
      rewrite count_occ_app, count_occ_repeat_other by lia.
      apply IHl. lia. }
    rewrite G by lia. lia.
  - rewrite count_occ_repeat_other by lia.
    replace (i0 + S j)%nat with (S i0 + j)%nat by lia.
    now apply IH.
Qed.

(** There is a complete schedule. *)
Lemma sequential_complete (ts : list (Prog B)) : complete w ts (sequential w 0 ts).
Proof.
  intros i p Hp. rewrite <- (sequential_count ts 0 i p Hp). simpl. lia.
Qed.

End PoolFacts.

Section Concurrency.
Import Pool.
Variable B : Type.





Lemma count_occ_seq n : forall a i,
  (a <= i < a + n)%nat -> count_occ Nat.eq_dec (seq a n) i = 1%nat.
Proof.
  induction n as [|n IH]; intros a i H; [lia|]. simpl.
  destruct (Nat.eq_dec a i) as [->|N].
  - f_equal. apply count_occ_not_In. rewrite in_seq. lia.
  - apply IH. lia.
Qed.

Lemma count_occ_rounds k n i :
  (i < n)%nat -> count_occ Nat.eq_dec (rounds k n) i = k.
Proof.
  intros H. unfold rounds. induction k as [|k IH]; simpl; [reflexivity|].
  rewrite count_occ_app, IH, count_occ_seq by lia. reflexivity.
Qed.


End Concurrency.

Lemma complete_rounds {B} (w : world) (ts : list (Prog B)) k :
  (forall p, In p ts -> (List.length (trace w p) <= k)%nat) ->
  Pool.complete w ts (rounds k (List.length ts)).
Proof.
  intros H i p Hp. rewrite count_occ_rounds.
  - apply H. eapply nth_error_In, Hp.
  - apply nth_error_Some. congruence.
Qed.

(* --------------------------------------------------------------------- *)
(** ** Decimal text and the conversions of the ethers library *)
(* --------------------------------------------------------------------- *)

Section DigitFacts.
Import Digits.



















End DigitFacts.

Section EthersRoundTrip.
Import Digits Ethers.







Lemma digit_not_minus c : is_digit c = true -> c <> "-"%char.
Proof. intros H ->. discriminate. Qed.












End EthersRoundTrip.

(* --------------------------------------------------------------------- *)
(** ** The price check *)
(* --------------------------------------------------------------------- *)

Section NumberFacts.
Import Number.

Lemma shr_1_nonneg r : 0 <= shr_m r -> 0 <= shr_m (shr_1 r).
Proof.
  destruct r as [m rb sb]. simpl.
  destruct m as [|[p|p|]|p]; simpl; lia.
Qed.

Lemma iter_shr_1_nonneg p : forall r,
  0 <= shr_m r -> 0 <= shr_m (iter_pos shr_1 p r).
Proof.
  induction p as [p IH|p IH|]; intros r H; simpl.
  - apply IH, IH, shr_1_nonneg, H.
  - apply IH, IH, H.
  - apply shr_1_nonneg, H.
Qed.

Lemma shr_fexp_nonneg m e l :
  0 <= m -> 0 <= shr_m (fst (shr_fexp prec emax m e l)).
Proof.
  intros H. unfold shr_fexp, shr.
  assert (H0 : 0 <= shr_m (shr_record_of_loc m l)).
  { destruct l as [|[]]; exact H. }
  destruct (fexp prec emax (Zdigits2 m + e) - e); simpl; auto.
  now apply iter_shr_1_nonneg.
Qed.

Lemma round_nearest_even_nonneg m l : 0 <= m -> 0 <= round_nearest_even m l.
Proof.
  intros H. destruct l as [|[]]; simpl; try lia.
  destruct (Z.even m); lia.
Qed.

(** A rounded value with the minus sign is not above zero. *)
Lemma binary_round_aux_minus m e l :
  0 <= m -> leb (binary_round_aux prec emax true m e l) zero = true.
Proof.
  intros H. unfold binary_round_aux.
  pose proof (shr_fexp_nonneg m e l H) as H1.
  destruct (shr_fexp prec emax m e l) as [mrs' e']. simpl in H1.
  pose proof (shr_fexp_nonneg _ e' loc_Exact
                (round_nearest_even_nonneg _ (loc_of_shr_record mrs') H1)) as H2.
  destruct (shr_fexp prec emax _ e' loc_Exact) as [mrs'' e'']. simpl in H2.
  destruct (shr_m mrs'') as [|p|p]; [reflexivity| |lia].
  destruct (e'' <=? emax - prec); reflexivity.
Qed.

Lemma SFdiv_core_nonneg mx ex my ey :
  0 <= fst (fst (SFdiv_core_binary prec emax (Zpos mx) ex (Zpos my) ey)).
Proof.
  unfold SFdiv_core_binary.
  set (s := _ - _ - _).
  set (m' := match s with Z0 => Zpos mx | Zpos _ => Z.shiftl (Zpos mx) s | Zneg _ => 0 end).
  assert (Hm : 0 <= m').
  { subst m'. destruct s; try lia. apply Z.shiftl_nonneg. lia. }
  pose proof (Z.div_pos m' (Zpos my) Hm ltac:(lia)) as Hq.
  unfold Z.div in Hq. destruct (Z.div_eucl m' (Zpos my)) as [q r]. exact Hq.
Qed.

Lemma RM_PER_ETH_eq : RM_PER_ETH = S754_finite false 8796093022208000 (-41).
Proof. vm_compute. reflexivity. Qed.

(** [x <= 0] implies [x / RM_PER_ETH <= 0]. *)
Lemma div_rate_nonpos x :
  leb x zero = true -> leb (div x RM_PER_ETH) zero = true.
Proof.
  rewrite RM_PER_ETH_eq. destruct x as [s|s| |s m e]; try discriminate.
  - reflexivity.
  - destruct s; [reflexivity|discriminate].
  - destruct s; [|discriminate]. intros _.
    unfold div, SFdiv.
    pose proof (SFdiv_core_nonneg m e 8796093022208000 (-41)) as H.
    destruct (SFdiv_core_binary _ _ _ _ _ _) as [[q e'] l]. simpl in H.
    apply binary_round_aux_minus, H.
Qed.




End NumberFacts.

Lemma price_to_wei_rejects priceRM msg :
  not_a_price (Number.parseFloat priceRM) ->
  exists e, price_to_wei priceRM msg = Err e /\
    (Number.leb (Number.parseFloat priceRM) Number.zero = true ->
     e = JS.new_Error msg) /\
    (Number.leb (Number.parseFloat priceRM) Number.zero = false ->
     e = Ethers.invalid_argument "invalid FixedNumber string value").
Proof.
  unfold price_to_wei. intros [H|[H|H]].
  - rewrite (div_rate_nonpos _ H). exists (JS.new_Error msg).
    repeat split. congruence.
  - rewrite H, RM_PER_ETH_eq. eexists. split; [vm_compute; reflexivity|].
    split; [discriminate|reflexivity].
  - rewrite H, RM_PER_ETH_eq. eexists. split; [vm_compute; reflexivity|].
    split; [discriminate|reflexivity].
Qed.

Section PriceGuard.
Variables (env : ImportMetaEnv) (w : world).


Lemma connectAccount_then {A} (k : option Account -> Prog A) :
  (forall acc, stops_before_ledger w (k acc)) ->
  stops_before_ledger w (bind (connectAccount env) k).
Proof.
  intros Hk. unfold stops_before_ledger, outcome, trace.
  rewrite run_bind.
  pose proof (connectAccount_calls w env) as Hc. unfold trace in Hc.
  destruct (run w (connectAccount env)) as [t [a|e]]; simpl in Hc.
  - destruct (Hk a) as [[e He] Hf]. unfold outcome, trace in He, Hf.
    destruct (run w (k a)) as [t' r]. simpl in *. split; [now exists e|].
    apply Forall_app; split; [|assumption].
    eapply Forall_impl; [|exact Hc]. now intros c [? _].
  - simpl. split; [now exists e|].
    eapply Forall_impl; [|exact Hc]. now intros c [? _].
Qed.

Lemma stops_Throw {A} e : stops_before_ledger w (Throw e : Prog A).
Proof. split; [exists e; reflexivity|constructor]. Qed.

Lemma stops_await {A} c (k : answer c -> Prog A) :
  is_ledger c = false ->
  (forall a, stops_before_ledger w (k a)) ->
  stops_before_ledger w (bind (await c) k).
Proof.
  intros Hc Hk. unfold stops_before_ledger, outcome, trace.
  rewrite run_bind, run_await.
  destruct (respond w c) as [a|e].
  - destruct (Hk a) as [[e He] Hf]. unfold outcome, trace in He, Hf.
    destruct (run w (k a)) as [t' r]. simpl in *. split; [now exists e|].
    constructor; assumption.
  - simpl. split; [now exists e|]. repeat constructor. assumption.
Qed.

Lemma stops_lift_Err {A B} e (k : A -> Prog B) :
  stops_before_ledger w (bind (lift (Err e)) k).
Proof. apply stops_Throw. Qed.

End PriceGuard.

(* --------------------------------------------------------------------- *)
(** ** The slots of the aggregation results *)
(* --------------------------------------------------------------------- *)

Section Slots.
Variable w : world.

(** The fetch of a document never throws, and yields a truthy value
    exactly when the resolution succeeds. *)
Lemma outcome_fetch_metadata publicCID :
  exists v, outcome w (fetch_metadata publicCID) = Ok v /\
    match resolution w publicCID with
    | Some meta => v = meta /\ JS.truthy v = true
    | None => JS.truthy v = false
    end.
Proof.
  unfold outcome, fetch_metadata, resolution.
  rewrite run_try_catch, run_bind, run_await. simpl respond.
  destruct (w (Fetch (gateway (JS.Str publicCID)))) as [resp|e];
    cbv beta iota; [|exists JS.Null; split; reflexivity].
  destruct (ok resp); [|exists JS.Null; split; reflexivity].
  awaited. simpl respond.
  destruct (json_body resp) as [v|e]; [|exists JS.Null; split; reflexivity].
  exists v. split; [reflexivity|].
  destruct (JS.truthy v) eqn:T; auto.
Qed.


Lemma outcome_bind_Ok {A B} (p : Prog A) (f : A -> Prog B) a :
  outcome w p = Ok a -> outcome w (bind p f) = outcome w (f a).
Proof.
  unfold outcome. rewrite run_bind. destruct (run w p) as [t r]. simpl.
  intros ->. now destruct (run w (f a)).
Qed.

Lemma outcome_bind_Err {A B} (p : Prog A) (f : A -> Prog B) e :
  outcome w p = Err e -> outcome w (bind p f) = Err e.
Proof.
  unfold outcome. rewrite run_bind. destruct (run w p) as [t r]. simpl.
  now intros ->.
Qed.


Lemma outcome_getYourLands_task ct id :
  outcome w (getYourLands_task ct id) =
  match your_slot w ct id with
  | Some r => Ok r
  | None =>
      match w (GetLand ct id) with
      | Err e => Err e
      | Ok _ => Err (JS.new_Error EmptyString)
      end
  end.
Proof.
  unfold getYourLands_task, your_slot.
  destruct (w (GetLand ct id)) as [[[land owner] cid]|e] eqn:E.
  - rewrite (outcome_bind_Ok _ _ (land, owner, cid))
      by (by_answer E).
    destruct (outcome_fetch_metadata cid) as [v [Hv Hr]].
    rewrite (outcome_bind_Ok _ _ v Hv).
    destruct (resolution w cid) as [meta|].
    + destruct Hr as [-> ->]. reflexivity.
    + rewrite Hr. reflexivity.
  - apply outcome_bind_Err. by_answer E.
Qed.

Lemma outcome_fetchAllLands_task ct id r :
  outcome w (fetchAllLands_task ct id) = Ok r <-> all_slot w ct id = Some r.
Proof.
  unfold fetchAllLands_task, all_slot.
  destruct (w (GetLand ct id)) as [[[land owner] cid]|e] eqn:E.
  - rewrite (outcome_bind_Ok _ _ (land, owner, cid))
      by (by_answer E).
    destruct (w (LandPrices ct (OfBigInt id))) as [wei|e] eqn:E2.
    + rewrite (outcome_bind_Ok _ _ wei) by (by_answer E2).
      destruct (wei_to_rm wei) as [priceRM|e] eqn:E3.
      * rewrite (outcome_bind_Ok _ _ priceRM) by reflexivity.
        destruct (outcome_fetch_metadata cid) as [v [Hv Hr]].
        rewrite (outcome_bind_Ok _ _ v Hv).
        destruct (resolution w cid) as [meta|].
        -- destruct Hr as [-> ->]. simpl. unfold outcome. simpl.
           split; congruence.
        -- rewrite Hr. simpl. unfold outcome. simpl. split; congruence.
      * rewrite (outcome_bind_Err _ _ e) by reflexivity.
        split; discriminate.
    + rewrite (outcome_bind_Err _ _ e) by (by_answer E2).
      split; discriminate.
  - rewrite (outcome_bind_Err _ _ e) by (by_answer E).
    split; discriminate.
Qed.


Lemma your_slot_iff ct id r :
  outcome w (getYourLands_task ct id) = Ok r <-> your_slot w ct id = Some r.
Proof.
  rewrite outcome_getYourLands_task.
  destruct (your_slot w ct id) as [r'|] eqn:E; [split; congruence|].
  destruct (w (GetLand ct id)); split; discriminate.
Qed.

End Slots.

Section FanOut.
Import Pool.
Variables (B : Type) (w : world) (task : Z -> Prog B) (slot : Z -> option B).
Hypothesis task_slot : forall id r, outcome w (task id) = Ok r <-> slot id = Some r.

Lemma seq_values_map ids vs :
  seq_values w (map task ids) = Some vs <-> map slot ids = map Some vs.
Proof.
  revert vs. induction ids as [|id ids IH]; intros vs; simpl.
  - split; intros H.
    + injection H as <-. reflexivity.
    + destruct vs; [reflexivity|discriminate].
  - destruct (outcome w (task id)) as [v|e] eqn:E.
    + apply task_slot in E. rewrite E.
      destruct (seq_values w (map task ids)) as [vs'|] eqn:Es.
      * destruct (IH vs') as [IH1 _]. rewrite (IH1 eq_refl).
        split; intros H.
        -- injection H as <-. reflexivity.
        -- destruct vs as [|v0 vs0]; [discriminate|].
           simpl in H. injection H as <- H.
           f_equal. f_equal.
           clear - H. revert vs0 H.
           induction vs' as [|a l IHl]; intros [|b m] H;
             try discriminate; [reflexivity|].
           simpl in H. injection H as -> H. f_equal. now apply IHl.
      * split; [discriminate|]. intros H.
        destruct vs as [|v0 vs0]; [discriminate|].
        simpl in H. injection H as _ H.
        apply IH in H. discriminate.
    + split; [discriminate|]. intros H.
      destruct vs as [|v0 vs0]; [discriminate|].
      simpl in H. injection H as H _.
      apply task_slot in H. congruence.
Qed.

Lemma map_slot_nth ids vs :
  map slot ids = map Some vs ->
  List.length vs = List.length ids /\
  forall i id, nth_error ids i = Some id -> nth_error vs i = slot id.
Proof.
  intros H. split.
  - apply (f_equal (@List.length _)) in H. now rewrite !length_map in H.
  - intros i id Hi.
    assert (E : nth_error (map slot ids) i = Some (slot id)).
    { rewrite nth_error_map, Hi. reflexivity. }
    rewrite H, nth_error_map in E.
    destruct (nth_error vs i) as [v|]; [|discriminate].
    simpl in E. now injection E as <-.
Qed.

(** Whatever the order of completion, a fulfilled [Promise.all] holds,
    in the order of the identifiers, the slot of each identifier. *)
Lemma fan_out_order sched ids vs :
  promise_all w sched (map task ids) = Some (Ok vs) ->
  List.length vs = List.length ids /\
  forall i id, nth_error ids i = Some id -> nth_error vs i = slot id.
Proof.
  intros H. apply promise_all_order in H.
  apply map_slot_nth, seq_values_map, H.
Qed.

Lemma all_slots ids :
  (forall id, In id ids -> slot id <> None) ->
  exists vs, map slot ids = map Some vs.
Proof.
  induction ids as [|id ids IH]; intros H.
  - exists []. reflexivity.
  - destruct IH as [vs Hvs]; [intros id' Hin; apply H; now right|].
    destruct (slot id) as [v|] eqn:E.
    + exists (v :: vs). simpl. now rewrite E, Hvs.
    + exfalso. apply (H id); [now left|exact E].
Qed.

(** Once all calls have completed, [Promise.all] is fulfilled when every
    identifier has a slot. *)
Lemma fan_out_fulfilled sched ids :
  (forall id, In id ids -> slot id <> None) ->
  complete w (map task ids) sched ->
  exists vs, promise_all w sched (map task ids) = Some (Ok vs).
Proof.
  intros H Hc. destruct (all_slots ids H) as [vs Hvs].
  exists vs. apply promise_all_complete; [|exact Hc].
  apply seq_values_map, Hvs.
Qed.

End FanOut.

Lemma run_all_tasks {B} (w : world) sched (c : call) (task : Z -> Prog B)
  (f : answer c -> list Z) ids :
  respond w c = Ok ids ->
  Pool.run_all w sched (bind (await c) (fun l => Ret (map task (f l)))) =
  Pool.promise_all w sched (map task (f ids)).
Proof.
  intros H. unfold Pool.run_all, outcome.
  rewrite run_bind, run_await, H. reflexivity.
Qed.



(* --------------------------------------------------------------------- *)
(** ** C1: the error of a failed access regrant *)
(* --------------------------------------------------------------------- *)

(** C1, as stated, fails on the code.  The error thrown after a failed
    access regrant is the same value for parcel 7, buyer [0xB0B], document
    [QmDeed7] and for parcel 8, buyer [0xCA7], document [QmDeed8]: it
    carries none of them.  And a failure of the off-chain phase (the user
    declines the signature, after the ledger has transferred the parcel)
    raises the very error value that a failure of the on-chain phase (the
    user declines the transaction) raises: the caller cannot tell them
    apart. *)
Lemma approvePurchase_error_not_distinct :
  outcome Demo.regrant_denied (approvePurchase Demo.env "7" "0xB0B" "QmDeed7")
    = Err (JS.new_Error "denied") /\
  outcome Demo.regrant_denied (approvePurchase Demo.env "8" "0xCA7" "QmDeed8")
    = Err (JS.new_Error "denied") /\
  outcome Demo.transaction_declined
    (approvePurchase Demo.env "7" "0xB0B" "QmDeed7") = Err Demo.user_rejected /\
  outcome Demo.signature_declined
    (approvePurchase Demo.env "7" "0xB0B" "QmDeed7") = Err Demo.user_rejected /\
  ledger_failure Demo.signature_declined Demo.ct "7" "0xB0B" = None.
Proof. repeat split. Qed.

(** C1 (amended).  When the on-chain phase of [approvePurchase] has
    succeeded (the wallet connects, [transferLandOwnership] and [tx.wait()]
    return) and, after the signed challenge, the content store answers
    [kavach.transferOwnership] with a reply whose [error] is truthy, the
    function makes exactly the seven calls below and then throws
    [new Error(text)], where [text] is the reply's [error] (stringified as
    JSON when it is an object).  The failure is raised to the caller, not
    swallowed; the error value carries the content store's text and nothing
    else. *)
Theorem approvePurchase_regrant_error
  (env : ImportMetaEnv) (w : world) (acc : Account)
  (landId : string) (buyerAddress : address) (privateCID : string)
  (tx : Tx) (challenge signature : string) (transferNFT : JS.value) :
  connects env w acc ->
  w (TransferLandOwnership (contract acc) landId buyerAddress) = Ok tx ->
  w (TxWait tx) = Ok tt ->
  w (KavachGetAuthMessage (userAddress acc)) = Ok (Some challenge) ->
  w (SignerSignMessage (signer acc) (Some challenge)) = Ok signature ->
  w (KavachTransferOwnership (userAddress acc) privateCID buyerAddress
       signature true) = Ok transferNFT ->
  JS.truthy (JS.optional_get transferNFT "error") = true ->
  run w (approvePurchase env landId buyerAddress privateCID) =
  ([GetWeb3ProviderAndSigner; SignerGetAddress (signer acc);
    TransferLandOwnership (contract acc) landId buyerAddress; TxWait tx;
    KavachGetAuthMessage (userAddress acc);
    SignerSignMessage (signer acc) (Some challenge);
    KavachTransferOwnership (userAddress acc) privateCID buyerAddress
      signature true],
   Err (JS.new_Error (error_text (JS.optional_get transferNFT "error")))).
Proof.
  intros Hc H1 H2 H3 H4 H5 H6. unfold approvePurchase.
  rewrite run_bind, (run_connectAccount w env acc Hc). cbv beta iota.
  rewrite run_bind, run_await. answered H1.
  rewrite run_bind, run_await. answered H2.
  rewrite run_bind. unfold signAuthMessage.
  rewrite run_bind, run_await. answered H3.
  awaited. answered H4.
  rewrite run_bind, run_await. answered H5.
  rewrite H6. reflexivity.
Qed.

(** C1 (amended) at a sample world: the content store answers
    [{ error: "denied" }]. *)
Lemma approvePurchase_regrant_error_witness :
  run Demo.regrant_denied (approvePurchase Demo.env "7" "0xB0B" "QmDeed") =
  ([GetWeb3ProviderAndSigner; SignerGetAddress Demo.sg;
    TransferLandOwnership Demo.ct "7" "0xB0B"; TxWait Demo.tx;
    KavachGetAuthMessage "0xA11CE";
    SignerSignMessage Demo.sg (Some "challenge");
    KavachTransferOwnership "0xA11CE" "QmDeed" "0xB0B" "0x5197" true],
   Err (JS.new_Error "denied")).
Proof.
  apply (approvePurchase_regrant_error Demo.env Demo.regrant_denied Demo.acc
           "7" "0xB0B" "QmDeed" Demo.tx "challenge" "0x5197"
           (JS.Obj [("error", JS.Str "denied")]));
    try reflexivity.
  repeat split.
Defined.

(* --------------------------------------------------------------------- *)
(** ** C2: no off-chain call after a failed on-chain phase *)
(* --------------------------------------------------------------------- *)

(** C2.  In [approvePurchase], when the wallet connects and the on-chain
    phase fails (the ledger call [transferLandOwnership] or its
    confirmation [tx.wait()] rejects with [e]), the function rejects with
    that same [e] and none of the calls it has made is a call to the
    content store: no auth challenge is requested and
    [kavach.transferOwnership] is never attempted. *)
Theorem approvePurchase_no_regrant_after_ledger_failure
  (env : ImportMetaEnv) (w : world) (acc : Account)
  (landId : string) (buyerAddress : address) (privateCID : string)
  (e : JS.Error) :
  connects env w acc ->
  ledger_failure w (contract acc) landId buyerAddress = Some e ->
  outcome w (approvePurchase env landId buyerAddress privateCID) = Err e /\
  Forall (fun c => is_content_store c = false)
    (trace w (approvePurchase env landId buyerAddress privateCID)).
Proof.
  intros Hc Hl. unfold outcome, trace, approvePurchase.
  rewrite run_bind, (run_connectAccount w env acc Hc).
  rewrite run_bind, run_await. simpl respond.
  unfold ledger_failure in Hl.
  destruct (w (TransferLandOwnership (contract acc) landId buyerAddress))
    as [tx|e1].
  - rewrite run_bind, run_await. simpl respond.
    destruct (w (TxWait tx)) as [u|e2]; [discriminate|].
    injection Hl as ->. simpl. split; [reflexivity|].
    repeat constructor.
  - injection Hl as ->. simpl. split; [reflexivity|].
    repeat constructor.
Qed.

(** C2 at a sample world: the user declines the transaction of parcel 7. *)
Lemma approvePurchase_no_regrant_after_ledger_failure_witness :
  outcome Demo.transaction_declined
    (approvePurchase Demo.env "7" "0xB0B" "QmDeed") = Err Demo.user_rejected /\
  Forall (fun c => is_content_store c = false)
    (trace Demo.transaction_declined
       (approvePurchase Demo.env "7" "0xB0B" "QmDeed")).
Proof.
  apply (approvePurchase_no_regrant_after_ledger_failure
           Demo.env Demo.transaction_declined Demo.acc).
  - repeat split.
  - reflexivity.
Defined.

(* --------------------------------------------------------------------- *)
(** ** C3: transitions are not validated by the client *)
(* --------------------------------------------------------------------- *)

(** C3, as stated, fails on the code.  Parcel 7 is [Approved] and owned by
    another account than the caller, and the specification's table lists no
    transition for listing an [Approved] parcel; yet [listLandForSale]
    issues the ledger call [listLandForSale("7", 1.25 ETH in wei)] and
    returns its transaction: no [InvalidTransition] is raised by the
    client, which never reads the parcel's state. *)
Lemma listLandForSale_ignores_state :
  Demo.base (GetLand Demo.ct 7) =
    Ok ({| landId := 7; status := statusToEnum Approved;
           metadataCID := "QmDeed" |}, "0x0B0B", "QmMeta7") /\
  userAddress Demo.acc <> "0x0B0B" /\
  spec_transition Approved ListForSale = None /\
  run Demo.base (listLandForSale Demo.env "7" "5000") =
    ([GetWeb3ProviderAndSigner; SignerGetAddress Demo.sg;
      ListLandForSale Demo.ct "7" 1250000000000000000], Ok Demo.tx).
Proof.
  split; [reflexivity|]. split; [discriminate|]. split; [reflexivity|].
  vm_compute. reflexivity.
Qed.

(** C3 (amended).  The client holds no transition table.  Whenever the
    wallet connects and the price converts to [priceWei],
    [listLandForSale] reads neither the state nor the owner of the parcel:
    it makes the two wallet calls and then the ledger call
    [contract.listLandForSale(landId, priceWei)], whose outcome, a
    transaction or the ledger's rejection, is the outcome of the function.
    [statusToEnum] maps the four statuses one-to-one onto 0..3.  Refusing
    a transition is left to the ledger. *)
Theorem listLandForSale_issues_ledger_call
  (env : ImportMetaEnv) (w : world) (acc : Account)
  (landId priceRM : string) (priceWei : Z) :
  connects env w acc ->
  price_to_wei priceRM "Price must be positive" = Ok priceWei ->
  run w (listLandForSale env landId priceRM) =
    ([GetWeb3ProviderAndSigner; SignerGetAddress (signer acc);
      ListLandForSale (contract acc) landId priceWei],
     w (ListLandForSale (contract acc) landId priceWei)) /\
  (forall s, 0 <= statusToEnum s <= 3) /\
  (forall s s', statusToEnum s = statusToEnum s' -> s = s').
Proof.
  intros Hc Hp. repeat split.
  - unfold listLandForSale.
    rewrite run_bind, (run_connectAccount w env acc Hc). cbv beta iota.
    rewrite run_bind, run_lift, Hp. cbv beta iota.
    awaited. reflexivity.
  - destruct s; simpl; lia.
  - destruct s; simpl; lia.
  - destruct s, s'; simpl; intros H; try reflexivity; discriminate.
Qed.

(** C3 (amended) at a sample world: listing parcel 7 for RM 5000. *)
Lemma listLandForSale_issues_ledger_call_witness :
  run Demo.base (listLandForSale Demo.env "7" "5000") =
    ([GetWeb3ProviderAndSigner; SignerGetAddress Demo.sg;
      ListLandForSale Demo.ct "7" 1250000000000000000],
     Demo.base (ListLandForSale Demo.ct "7" 1250000000000000000)) /\
  (forall s, 0 <= statusToEnum s <= 3) /\
  (forall s s', statusToEnum s = statusToEnum s' -> s = s').
Proof.
  apply (listLandForSale_issues_ledger_call Demo.env Demo.base Demo.acc
           "7" "5000" 1250000000000000000).
  - repeat split.
  - vm_compute. reflexivity.
Defined.

(* --------------------------------------------------------------------- *)
(** ** C4: prices that are turned away *)
(* --------------------------------------------------------------------- *)

(** C4, as stated, fails on the code.  [listingLand] with the price "0"
    requests an auth challenge, uploads the encrypted deed and uploads the
    metadata document, three calls to the content store, before it turns
    the price away; and a price that parses to [NaN] is not turned away by
    the price check but by [parseEther], with the library's error. *)
Lemma listingLand_uploads_before_price_check :
  run Demo.base
    (listingLand Demo.env "GRN 1" "Residential" "0" Demo.deed "alice") =
  ([GetWeb3ProviderAndSigner; SignerGetAddress Demo.sg;
    KavachGetAuthMessage "0xA11CE";
    SignerSignMessage Demo.sg (Some "challenge");
    LighthouseUploadEncrypted [Demo.deed] "key" "0xA11CE" "0x5197";
    DateNowISO;
    LighthouseUpload
      [{| file_name := "land_listing_metadata.json";
          file_body :=
            JS.JSON_stringify
              (JS.Obj [("titleNumber", JS.Str "GRN 1");
                       ("landType", JS.Str "Residential");
                       ("username", JS.Str "alice");
                       ("area", JS.Str "100 m2");
                       ("geranCid", JS.Str "QmGeran");
                       ("timestamp", JS.Str "2025-06-01T00:00:00.000Z")]) |}]
      "key"],
   Err (JS.new_Error "Price must be at least MYR 4000")) /\
  existsb is_content_store
    (trace Demo.base
       (listingLand Demo.env "GRN 1" "Residential" "0" Demo.deed "alice"))
    = true /\
  Number.parseFloat "not a number" = Number.NaN /\
  outcome Demo.base (listLandForSale Demo.env "7" "not a number") =
    Err (Ethers.invalid_argument "invalid FixedNumber string value").
Proof. repeat split; vm_compute; reflexivity. Qed.

(** C4 (amended).  When the parsed price [x = parseFloat(priceRM)] is not
    above zero, is [NaN] or is [Infinity], the conversion fails: with the
    function's own [new Error(msg)] when [x <= 0] (which includes
    [-Infinity]), and with the ethers library's invalid-argument error
    when [x] is [NaN] or [Infinity], which the comparison [ethValue <= 0]
    lets through and [parseEther] turns away.  In each of
    [listLandForSale], [requestToBuyLand] and [listingLand] the function
    then throws without having made any call to the ledger. *)
Theorem price_rejected_before_ledger_call
  (env : ImportMetaEnv) (w : world) (priceRM : string) :
  not_a_price (Number.parseFloat priceRM) ->
  (forall msg, exists e, price_to_wei priceRM msg = Err e /\
     (Number.leb (Number.parseFloat priceRM) Number.zero = true ->
      e = JS.new_Error msg) /\
     (Number.leb (Number.parseFloat priceRM) Number.zero = false ->
      e = Ethers.invalid_argument "invalid FixedNumber string value")) /\
  (forall landId, stops_before_ledger w (listLandForSale env landId priceRM)) /\
  (forall landId, stops_before_ledger w (requestToBuyLand env landId priceRM)) /\
  (forall titleNumber landType geranFile username,
     stops_before_ledger w
       (listingLand env titleNumber landType priceRM geranFile username)).
Proof.
  intros H. split; [intros msg; now apply price_to_wei_rejects|].
  split; [|split].
  - intros landId. unfold listLandForSale. apply connectAccount_then.
    intros [acc|]; [|apply stops_Throw].
    destruct (price_to_wei_rejects priceRM "Price must be positive" H)
      as [e [-> _]].
    apply stops_lift_Err.
  - intros landId. unfold requestToBuyLand. apply connectAccount_then.
    intros [acc|]; [|apply stops_Throw].
    destruct (price_to_wei_rejects priceRM "Invalid price" H) as [e [-> _]].
    apply stops_lift_Err.
  - intros titleNumber landType geranFile username. unfold listingLand.
    apply connectAccount_then.
    intros [acc|]; [|apply stops_Throw].
    apply stops_await; [reflexivity|]. intros challenge.
    apply stops_await; [reflexivity|]. intros signature.
    apply stops_await; [reflexivity|]. intros [|geranCid rest];
      [apply stops_Throw|].
    apply stops_await; [reflexivity|]. intros timestamp.
    apply stops_await; [reflexivity|]. intros publicCid.
    destruct (price_to_wei_rejects priceRM "Price must be at least MYR 4000" H)
      as [e [-> _]].
    apply stops_lift_Err.
Qed.

(** C4 (amended) at a sample world: the price "0". *)
Lemma price_rejected_before_ledger_call_witness :
  not_a_price (Number.parseFloat "0") /\
  stops_before_ledger Demo.base (listLandForSale Demo.env "7" "0").
Proof.
  assert (H : not_a_price (Number.parseFloat "0")) by (left; reflexivity).
  split; [exact H|].
  apply (price_rejected_before_ledger_call Demo.env Demo.base "0" H).
Defined.

(* --------------------------------------------------------------------- *)
(** ** C5: the fan-out keeps the order of the identifiers *)
(* --------------------------------------------------------------------- *)



(* --------------------------------------------------------------------- *)
(** ** C6: records whose metadata cannot be resolved *)
(* --------------------------------------------------------------------- *)

(** C6, as stated, fails on the code.  With the gateway down for the
    document of parcel 8, the record of parcel 8 in the result of
    [fetchAllLands] has the empty string, not a marker, as title number,
    area and deed address; and in the result of [getYourLands] its price is
    the empty string too, since that function reads no price from the
    ledger. *)
Lemma unavailable_fields_are_empty_strings :
  resolution Demo.gateway_down "QmMeta8" = None /\
  (exists vs,
     Pool.run_all Demo.gateway_down (rounds 4 3) (fetchAllLands Demo.ct) =
       Some (Ok vs) /\
     map yl_landId vs = ["7"; "8"; "9"] /\
     map yl_titleNumber vs =
       [JS.Str "GRN 1"; JS.Str EmptyString; JS.Str "GRN 1"] /\
     map yl_area vs = [JS.Str "100 m2"; JS.Str EmptyString; JS.Str "100 m2"] /\
     map yl_geranUrl vs =
       ["https://gateway.lighthouse.storage/ipfs/QmGeran"; EmptyString;
        "https://gateway.lighthouse.storage/ipfs/QmGeran"] /\
     map yl_priceRM vs =
       [JS.Str "5000.00"; JS.Str "5000.00"; JS.Str "5000.00"]) /\
  (exists vs,
     Pool.run_all Demo.gateway_down (rounds 3 3)
       (getYourLands Demo.ct "0xA11CE") = Some (Ok vs) /\
     map yl_landId vs = ["7"; "8"; "9"] /\
     map yl_titleNumber vs =
       [JS.Str "GRN 1"; JS.Str EmptyString; JS.Str "GRN 1"] /\
     map yl_priceRM vs = [JS.Undefined; JS.Str EmptyString; JS.Undefined]).
Proof.
  split; [reflexivity|]. split; eexists; (split; [vm_compute; reflexivity|]);
    repeat split.
Qed.

(** C6 (amended).  When the ledger reads succeed and all calls have
    completed, [getYourLands] and [fetchAllLands] are fulfilled with one
    record per identifier, and for every identifier whose metadata
    resolution fails the record at its position is the one with the
    identifier, status, owner and metadata CID read from the ledger (and,
    in [fetchAllLands] only, the price read from the ledger), in which
    every descriptive field is the empty string (and, in [getYourLands],
    the price as well).  A failed resolution neither removes the record
    nor raises. *)
Theorem unresolved_metadata_keeps_record
  (w : world) (ct : Contract) (user : address) (ids all_ids : list Z)
  (sched : list nat) :
  w (GetOwnedLands ct user) = Ok ids ->
  w (GetAllLandIds ct) = Ok all_ids ->
  ((forall id, In id ids -> exists l, w (GetLand ct id) = Ok l) ->
   Pool.complete w (map (getYourLands_task ct) ids) sched ->
   exists vs,
     Pool.run_all w sched (getYourLands ct user) = Some (Ok vs) /\
     List.length vs = List.length ids /\
     forall i id land owner cid,
       nth_error ids i = Some id ->
       w (GetLand ct id) = Ok (land, owner, cid) ->
       resolution w cid = None ->
       nth_error vs i =
       Some (yl_unavailable (BigInt_toString id) (status land) owner
               (metadataCID land) (JS.Str EmptyString))) /\
  ((forall id, In id all_ids -> all_slot w ct id <> None) ->
   Pool.complete w (map (fetchAllLands_task ct) all_ids) sched ->
   exists vs,
     Pool.run_all w sched (fetchAllLands ct) = Some (Ok vs) /\
     List.length vs = List.length all_ids /\
     forall i id land owner cid priceWei priceRM,
       nth_error all_ids i = Some id ->
       w (GetLand ct id) = Ok (land, owner, cid) ->
       w (LandPrices ct (OfBigInt id)) = Ok priceWei ->
       wei_to_rm priceWei = Ok priceRM ->
       resolution w cid = None ->
       nth_error vs i =
       Some (yl_unavailable (BigInt_toString id) (status land) owner
               (metadataCID land) (JS.Str priceRM))) /\
  (forall id statusCode owner cid priceRM,
     let r := yl_unavailable id statusCode owner cid priceRM in
     yl_landId r = id /\ yl_status r = statusCode /\ yl_owner r = owner /\
     yl_metadataCID r = cid /\ yl_priceRM r = priceRM /\
     yl_titleNumber r = JS.Str EmptyString /\
     yl_landType r = JS.Str EmptyString /\
     yl_username r = JS.Str EmptyString /\
     yl_area r = JS.Str EmptyString /\
     yl_geranCid r = JS.Str EmptyString /\
     yl_geranUrl r = EmptyString /\
     yl_timestamp r = JS.Str EmptyString).
Proof.
  intros Ho Ha.
  assert (Ry : Pool.run_all w sched (getYourLands ct user) =
               Pool.promise_all w sched (map (getYourLands_task ct) ids)).
  { unfold getYourLands.
    apply (run_all_tasks w sched (GetOwnedLands ct user) (getYourLands_task ct)
             (fun l => l)). exact Ho. }
  assert (Ra : Pool.run_all w sched (fetchAllLands ct) =
               Pool.promise_all w sched (map (fetchAllLands_task ct) all_ids)).
  { unfold fetchAllLands.
    apply (run_all_tasks w sched (GetAllLandIds ct) (fetchAllLands_task ct)
             (fun l => l)). exact Ha. }
  split; [|split].
  - intros Hl Hc.
    assert (Hs : forall id, In id ids -> your_slot w ct id <> None).
    { intros id Hin. destruct (Hl id Hin) as [[[land owner] cid] E].
      unfold your_slot. rewrite E. discriminate. }
    destruct (fan_out_fulfilled _ w (getYourLands_task ct) (your_slot w ct)
                (your_slot_iff w ct) sched ids Hs Hc) as [vs Hvs].
    exists vs. rewrite Ry. split; [exact Hvs|].
    destruct (fan_out_order _ w (getYourLands_task ct) (your_slot w ct)
                (your_slot_iff w ct) sched ids vs Hvs) as [Hlen Hnth].
    split; [exact Hlen|].
    intros i id land owner cid Hi E Hr.
    rewrite (Hnth i id Hi). unfold your_slot. now rewrite E, Hr.
  - intros Hs Hc.
    destruct (fan_out_fulfilled _ w (fetchAllLands_task ct) (all_slot w ct)
                (outcome_fetchAllLands_task w ct) sched all_ids Hs Hc)
      as [vs Hvs].
    exists vs. rewrite Ra. split; [exact Hvs|].
    destruct (fan_out_order _ w (fetchAllLands_task ct) (all_slot w ct)
                (outcome_fetchAllLands_task w ct) sched all_ids vs Hvs)
      as [Hlen Hnth].
    split; [exact Hlen|].
    intros i id land owner cid priceWei priceRM Hi E E2 E3 Hr.
    rewrite (Hnth i id Hi). unfold all_slot. now rewrite E, E2, E3, Hr.
  - intros id statusCode owner cid priceRM. repeat split.
Qed.

(** C6 (amended) at a sample world: the gateway is down for parcel 8. *)
Lemma unresolved_metadata_keeps_record_witness :
  exists vs,
    Pool.run_all Demo.gateway_down (rounds 4 3) (fetchAllLands Demo.ct) =
      Some (Ok vs) /\
    List.length vs = 3%nat /\
    nth_error vs 1 =
      Some (yl_unavailable "8" 3 "0x0B0B" "QmDeed" (JS.Str "5000.00")).
Proof.
  destruct (unresolved_metadata_keeps_record Demo.gateway_down Demo.ct
              "0xA11CE" [7; 8; 9] [7; 8; 9] (rounds 4 3) eq_refl eq_refl)
    as [_ [H _]].
  destruct H as [vs [Hvs [Hlen Hnth]]].
  - intros id [<-|[<-|[<-|[]]]]; vm_compute; discriminate.
  - apply (complete_rounds Demo.gateway_down
             (map (fetchAllLands_task Demo.ct) [7; 8; 9]) 4).
    intros p [<-|[<-|[<-|[]]]]; vm_compute; lia.
  - exists vs. split; [exact Hvs|]. split; [exact Hlen|].
    apply (Hnth 1%nat 8
             {| landId := 8; status := 3; metadataCID := "QmDeed" |}
             "0x0B0B" "QmMeta8" 1250000000000000000 "5000.00");
      vm_compute; reflexivity.
Defined.

(* --------------------------------------------------------------------- *)
(** ** C7: the round trip of a price *)
(* --------------------------------------------------------------------- *)




(* --------------------------------------------------------------------- *)
(** ** C8: overlapping transfers of one parcel *)
(* --------------------------------------------------------------------- *)

(** C8, as stated, fails on the code.  While a transfer of parcel 7 is in
    flight (its ledger call is issued and has not completed), a second
    invocation of [approvePurchase] for parcel 7 is not rejected: it
    connects and issues its own ledger call for the same parcel, and when
    the calls complete both invocations return. *)
Lemma two_transfers_of_one_parcel_in_flight :
  let first :=
    Pool.run_schedule Demo.base [0; 0]%nat
      (Pool.spawn (approvePurchase Demo.env "7" "0xB0B" "QmDeed")
         (Pool.empty unit)) in
  let both :=
    Pool.run_schedule Demo.base [1; 1]%nat
      (Pool.spawn (approvePurchase Demo.env "7" "0xCA7" "QmDeed") first) in
  pending_of first 0 = Some (TransferLandOwnership Demo.ct "7" "0xB0B") /\
  Pool.log both =
    [Pool.Issued 0 GetWeb3ProviderAndSigner;
     Pool.Completed 0 GetWeb3ProviderAndSigner;
     Pool.Issued 0 (SignerGetAddress Demo.sg);
     Pool.Completed 0 (SignerGetAddress Demo.sg);
     Pool.Issued 0 (TransferLandOwnership Demo.ct "7" "0xB0B");
     Pool.Issued 1 GetWeb3ProviderAndSigner;
     Pool.Completed 1 GetWeb3ProviderAndSigner;
     Pool.Issued 1 (SignerGetAddress Demo.sg);
     Pool.Completed 1 (SignerGetAddress Demo.sg);
     Pool.Issued 1 (TransferLandOwnership Demo.ct "7" "0xCA7")] /\
  Pool.rejection both = None /\
  Pool.settled
    (Pool.run_schedule Demo.base [1; 0; 1; 0; 0; 1; 1; 0; 0; 1]%nat both) =
    Some (Ok [tt; tt]).
Proof. repeat split. Qed.

(** C8 (amended).  [approvePurchase] has no guard against re-entry.  When
    the wallet connects, an invocation made while another invocation for
    the same [landId] waits for its ledger call is not rejected: after its
    two wallet calls it waits for its own [transferLandOwnership] call on
    the same parcel, the first invocation still waits for its call, and
    nothing has been rejected.  Excluding a second transfer is left to the
    ledger. *)
Theorem second_transfer_is_not_rejected
  (env : ImportMetaEnv) (w : world) (acc : Account) (landId : string)
  (buyer1 buyer2 : address) (cid1 cid2 : string) :
  connects env w acc ->
  let first :=
    Pool.run_schedule w [0; 0]%nat
      (Pool.spawn (approvePurchase env landId buyer1 cid1)
         (Pool.empty unit)) in
  let both :=
    Pool.run_schedule w [1; 1]%nat
      (Pool.spawn (approvePurchase env landId buyer2 cid2) first) in
  pending_of first 0 =
    Some (TransferLandOwnership (contract acc) landId buyer1) /\
  pending_of both 0 =
    Some (TransferLandOwnership (contract acc) landId buyer1) /\
  pending_of both 1 =
    Some (TransferLandOwnership (contract acc) landId buyer2) /\
  Pool.rejection both = None.
Proof.
  intros [H1 [H2 H3]] first both.
  assert (Hct : {| target := CONTRACT_ADDRESS env; runner := signer acc |} =
                contract acc) by (symmetry; exact H3).
  assert (Hf : exists k,
            Pool.tasks first =
              [Await (TransferLandOwnership (contract acc) landId buyer1) k] /\
            Pool.rejection first = None).
  { subst first. unfold Pool.run_schedule. cbn [fold_left].
    unfold approvePurchase, connectAccount.
    unfold Pool.deliver at 2. unfold Pool.spawn, Pool.empty. cbn.
    rewrite H1. unfold Pool.deliver. cbn. rewrite H2, Hct. cbn.
    eexists. split; reflexivity. }
  destruct Hf as [k [Ht Hr]].
  assert (Hb : exists k',
            Pool.tasks both =
              [Await (TransferLandOwnership (contract acc) landId buyer1) k;
               Await (TransferLandOwnership (contract acc) landId buyer2) k']
            /\ Pool.rejection both = None).
  { subst both. unfold Pool.run_schedule. cbn [fold_left].
    unfold approvePurchase, connectAccount.
    unfold Pool.deliver at 2. unfold Pool.spawn. rewrite Ht, Hr. cbn.
    rewrite H1. unfold Pool.deliver. cbn. rewrite H2, Hct. cbn.
    eexists. split; reflexivity. }
  destruct Hb as [k' [Ht' Hr']].
  unfold pending_of. rewrite Ht, Ht', Hr'. repeat split.
Qed.

(** C8 (amended) at a sample world: two buyers of parcel 7. *)
Lemma second_transfer_is_not_rejected_witness :
  pending_of
    (Pool.run_schedule Demo.base [1; 1]%nat
       (Pool.spawn (approvePurchase Demo.env "7" "0xCA7" "QmDeed")
          (Pool.run_schedule Demo.base [0; 0]%nat
             (Pool.spawn (approvePurchase Demo.env "7" "0xB0B" "QmDeed")
                (Pool.empty unit))))) 1 =
  Some (TransferLandOwnership Demo.ct "7" "0xCA7").
Proof.
  destruct (second_transfer_is_not_rejected Demo.env Demo.base Demo.acc "7"
              "0xB0B" "0xCA7" "QmDeed" "QmDeed") as [_ [_ [H _]]].
  - repeat split.
  - exact H.
Defined.

(* --------------------------------------------------------------------- *)
(** ** C9: the metadata document of a listing *)
(* --------------------------------------------------------------------- *)



(* --------------------------------------------------------------------- *)
(** ** C10: the price lookup never raises *)
(* --------------------------------------------------------------------- *)

(** C10, as stated, fails on the code in its last clause.  For a parcel
    whose price is zero [fetchLandPrice] returns "0.0", the text
    [formatEther] prints for zero, while a failed lookup returns "0": the
    two strings differ. *)
Lemma fetchLandPrice_zero_price_differs :
  outcome Demo.unlisted (fetchLandPrice Demo.env (Number.of_Z 7)) = Ok "0.0" /\
  outcome Demo.no_wallet (fetchLandPrice Demo.env (Number.of_Z 7)) = Ok "0" /\
  String.eqb "0" "0.0" = false.
Proof. repeat split. Qed.

(** C10 (amended).  [fetchLandPrice] never raises: in every world it
    returns a string.  It returns "0" when the provider cannot be set up,
    when the signer cannot be obtained, when the ledger's price lookup
    rejects and when the price cannot be formatted; otherwise it returns
    the formatted price.  A price of zero is formatted as "0.0": the string
    of a failure differs from it, but denotes the same amount, as a Number
    and as an amount of wei. *)
Theorem fetchLandPrice_never_raises
  (env : ImportMetaEnv) (w : world) (landId : Number.number) :
  (exists s, outcome w (fetchLandPrice env landId) = Ok s) /\
  (forall e, w NewBrowserProvider = Err e ->
     outcome w (fetchLandPrice env landId) = Ok "0") /\
  (forall provider e,
     w NewBrowserProvider = Ok provider ->
     w (ProviderGetSigner provider) = Err e ->
     outcome w (fetchLandPrice env landId) = Ok "0") /\
  (forall provider sg r,
     w NewBrowserProvider = Ok provider ->
     w (ProviderGetSigner provider) = Ok sg ->
     w (LandPrices {| target := VITE_CONTRACT_ADDRESS env; runner := sg |}
          (OfNumber landId)) = r ->
     outcome w (fetchLandPrice env landId) =
     Ok match r with
        | Ok price =>
            match Ethers.formatEther price with
            | Ok formatted => formatted
            | Err _ => "0"
            end
        | Err _ => "0"
        end) /\
  Ethers.formatEther 0 = Ok "0.0" /\
  Number.parseFloat "0" = Number.parseFloat "0.0" /\
  Ethers.parseEther "0" = Ethers.parseEther "0.0".
Proof.
  assert (G : forall provider sg r,
     w NewBrowserProvider = Ok provider ->
     w (ProviderGetSigner provider) = Ok sg ->
     w (LandPrices {| target := VITE_CONTRACT_ADDRESS env; runner := sg |}
          (OfNumber landId)) = r ->
     outcome w (fetchLandPrice env landId) =
     Ok match r with
        | Ok price =>
            match Ethers.formatEther price with
            | Ok formatted => formatted
            | Err _ => "0"
            end
        | Err _ => "0"
        end).
  { intros provider sg r H1 H2 H3. unfold outcome, fetchLandPrice.
    rewrite run_try_catch, run_bind, run_await. answered H1.
    rewrite run_bind, run_await. answered H2.
    rewrite run_bind, run_await. unfold CONTRACT_ADDRESS. answered H3.
    destruct r as [price|e]; [|reflexivity].
    rewrite run_lift. now destruct (Ethers.formatEther price). }
  assert (G1 : forall e, w NewBrowserProvider = Err e ->
     outcome w (fetchLandPrice env landId) = Ok "0").
  { intros e H1. unfold outcome, fetchLandPrice.
    rewrite run_try_catch, run_bind, run_await. answered H1. reflexivity. }
  assert (G2 : forall provider e,
     w NewBrowserProvider = Ok provider ->
     w (ProviderGetSigner provider) = Err e ->
     outcome w (fetchLandPrice env landId) = Ok "0").
  { intros provider e H1 H2. unfold outcome, fetchLandPrice.
    rewrite run_try_catch, run_bind, run_await. answered H1.
    rewrite run_bind, run_await. answered H2. reflexivity. }
  split; [|repeat split; auto].
  destruct (w NewBrowserProvider) as [provider|e] eqn:E1; [|eauto].
  destruct (w (ProviderGetSigner provider)) as [sg|e] eqn:E2; [|eauto].
  eexists. apply (G provider sg _ eq_refl E2 eq_refl).
Qed.

(** C10 (amended) at a sample world: no wallet is installed. *)
Lemma fetchLandPrice_never_raises_witness :
  outcome Demo.no_wallet (fetchLandPrice Demo.env (Number.of_Z 7)) = Ok "0".
Proof.
  destruct (fetchLandPrice_never_raises Demo.env Demo.no_wallet (Number.of_Z 7))
    as [_ [H _]].
  apply (H Demo.unreachable). reflexivity.
Defined.
